(** * signalr.py: the SignalR client of the F1 live-timing integration

    A shallow embedding of [src/python-example/signalr.py] and the properties
    of its connection, back-off, frame demultiplexing, start-up filter and
    close logic.

    The client is asynchronous Python; one task drives it, so an [await] is
    modelled as a plain call.  Every call that leaves the module (HTTP
    session, websocket, clock, transform, flag machine, state registry,
    logger, sleep) is an operation of an environment [Env] over a world
    state, and each such call is recorded in a trace, so that "is invoked",
    "is sent once" and "in order" are statements about the trace. *)

From Stdlib Require Import List String Ascii ZArith Bool Lia Permutation Sorted.
Import ListNotations.
Open Scope string_scope.
Open Scope list_scope.
Open Scope Z_scope.
Set Warnings "-register-all".

(** ** Python values produced by [json.loads] *)

(** [JObj] is a Python [dict] with string keys, kept in insertion order
    (the order [dict.values()] iterates in); keys are distinct in every
    value [json.loads] builds.  [JFloat] keeps the lexeme: the client never
    computes with numbers. *)
Inductive json : Type :=
| JNull
| JBool (b : bool)
| JInt (n : Z)
| JFloat (lexeme : string)
| JStr (s : string)
| JArr (items : list json)
| JObj (fields : list (string * json)).

(** ** Exceptions *)

(** The classes the module can meet.  [BaseOnly] stands for the exceptions
    that derive from [BaseException] but not from [Exception]
    ([asyncio.CancelledError], [KeyboardInterrupt], ...): [except Exception]
    does not catch them. *)
Inductive exn : Type :=
| TypeError
| KeyError
| IndexError
| AttributeError
| ValueError
| JSONDecodeError
| ClientResponseError
| OtherException (name : string)
| BaseOnly (name : string).

Definition is_Exception (e : exn) : bool :=
  match e with
  | BaseOnly _ => false
  | _ => true
  end.

Inductive result (A : Type) : Type :=
| Ok (a : A)
| Raise (e : exn).
Arguments Ok {A} a.
Arguments Raise {A} e.


(** ** The Python operators the module applies to parsed JSON *)

Module Py.

Fixpoint lookup (k : string) (fields : list (string * json)) : option json :=
  match fields with
  | [] => None
  | (k', v) :: rest => if String.eqb k k' then Some v else lookup k rest
  end.

Definition values (fields : list (string * json)) : list json :=
  map snd fields.

Definition keys (fields : list (string * json)) : list json :=
  map (fun kv => JStr (fst kv)) fields.

(** [v == s] for a string literal [s]. *)
Definition eq_str (v : json) (s : string) : bool :=
  match v with
  | JStr s' => String.eqb s' s
  | _ => false
  end.

Definition substring_of (needle hay : string) : bool :=
  match String.index 0 needle hay with
  | Some _ => true
  | None => false
  end.

Fixpoint chars (s : string) : list json :=
  match s with
  | EmptyString => []
  | String c rest => JStr (String c EmptyString) :: chars rest
  end.

(** [k in v] for a string [k]: key membership in a dict, element equality
    in a list, substring in a string, [TypeError] elsewhere. *)
Definition contains (k : string) (v : json) : result bool :=
  match v with
  | JObj fields => Ok (match lookup k fields with Some _ => true | None => false end)
  | JArr items => Ok (existsb (fun x => eq_str x k) items)
  | JStr s => Ok (substring_of k s)
  | _ => Raise TypeError
  end.

(** [v[k]] for a string [k]. *)
Definition getitem (v : json) (k : string) : result json :=
  match v with
  | JObj fields =>
      match lookup k fields with
      | Some x => Ok x
      | None => Raise KeyError
      end
  | _ => Raise TypeError
  end.

(** [v[i]] for a non-negative integer literal [i]. *)
Definition getindex (v : json) (i : nat) : result json :=
  match v with
  | JArr items =>
      match nth_error items i with
      | Some x => Ok x
      | None => Raise IndexError
      end
  | JStr s =>
      match nth_error (chars s) i with
      | Some x => Ok x
      | None => Raise IndexError
      end
  | JObj _ => Raise KeyError
  | _ => Raise TypeError
  end.

(** [v.get(k)]: only a dict has the method. *)
Definition get (v : json) (k : string) : result json :=
  match v with
  | JObj fields =>
      match lookup k fields with
      | Some x => Ok x
      | None => Ok JNull
      end
  | _ => Raise AttributeError
  end.

(** What [for x in v] binds [x] to. *)
Definition iter (v : json) : result (list json) :=
  match v with
  | JArr items => Ok items
  | JObj fields => Ok (keys fields)
  | JStr s => Ok (chars s)
  | _ => Raise TypeError
  end.

End Py.

(** ** The websocket and HTTP objects the client sees *)

(** [aiohttp.WSMsgType]. *)
Inductive WSMsgType : Type :=
| CONTINUATION | TEXT | BINARY | PING | PONG | CLOSE | CLOSING | CLOSED | ERROR.

Record ws_msg : Type := { mtype : WSMsgType; data : string }.

(** The websocket object [ws_connect] returns, by identity. *)
Definition handle : Type := nat.

(** What the client asks of the negotiate response: [raise_for_status()],
    [await resp.json()] and [resp.headers.get("Set-Cookie")]. *)
Record response : Type := {
  raise_for_status : result unit;
  json_body : result json;
  set_cookie : option string
}.

(** [datetime.datetime]: an instant in microseconds, offset-naive or
    offset-aware.  [utcnow()] is always naive; [fromisoformat] is aware
    exactly when the text carries an offset. *)
Inductive datetime : Type :=
| Naive (us : Z)
| Aware (us : Z).

(** [a < cutoff] for a naive [cutoff]: Python refuses to order a naive and
    an aware datetime. *)
Definition datetime_lt (a : datetime) (cutoff : Z) : result bool :=
  match a with
  | Naive t => Ok (t <? cutoff)
  | Aware _ => Raise TypeError
  end.

(** [dt.timedelta(seconds=30)], in microseconds. *)
Definition thirty_seconds : Z := 30 * 1000000.

(** ** Module constants *)

Definition NEGOTIATE_URL : string := "https://livetiming.formula1.com/signalr/negotiate".
Definition CONNECT_URL : string := "wss://livetiming.formula1.com/signalr/connect".
Definition dquote : string := String (ascii_of_nat 34) EmptyString.
Definition HUB_DATA : string :=
  ("[{" ++ dquote ++ "name" ++ dquote ++ ":" ++ dquote ++ "Streaming" ++ dquote ++ "}]")%string.
Definition SUBSCRIBE_MSG : json :=
  JObj [ ("H", JStr "Streaming");
         ("M", JStr "Subscribe");
         ("A", JArr [JArr [JStr "RaceControlMessages"]]);
         ("I", JInt 1) ].


(** ** The environment *)

(** Query parameters and request headers, as the dicts the client builds. *)
Definition params : Type := list (string * json).
Definition headers : Type := list (string * string).

(** The calls that leave the module.  [W] is the state of everything outside
    the client (network, clock, Home Assistant).  [record] is what
    [rc_transform.clean_rc] returns when it is truthy and [attrs] what the
    flag machine reports next to a changed state.

    - [clean_rc raw t0] answers [None] for any falsy result;
    - [rc_time clean] is the whole expression
      [dt.datetime.fromisoformat(clean["utc"].replace("Z", "+00:00"))];
    - [flag_machine] is the truth value of [hass.data.get(FLAG_MACHINE)];
    - [apply clean] is [changed, attrs = await machine.apply(clean)], with
      [None] for [changed is None];
    - [json_loads] is [json.loads]. *)
Class Env (W record attrs : Type) : Type := {
  session_get : string -> params -> W -> result response * W;
  ws_connect : string -> params -> headers -> W -> result handle * W;
  send_json : handle -> json -> W -> result unit * W;
  ws_close : handle -> W -> result unit * W;
  utcnow : W -> Z * W;
  sleep : Z -> W -> result unit * W;
  json_loads : string -> result json;
  clean_rc : json -> Z -> W -> result (option record) * W;
  rc_time : record -> result datetime;
  flag_machine : W -> bool;
  apply : record -> W -> result (option string * attrs) * W;
  async_set : string -> string -> attrs -> W -> result unit * W
}.

(** The constants [_ensure_connection] imports from [.const]. *)
Class Const : Type := {
  FAST_RETRY_SEC : Z;
  MAX_RETRY_SEC : Z;
  BACK_OFF_FACTOR : Z
}.

(** What [_LOGGER] is asked to write. *)
Inductive log_record : Type :=
| DebugConnecting
| DebugEstablished
| DebugSubscribed
| DebugPayload (index : Z) (payload : json)
| WarnReconnectFailed (err : exn) (delay : Z)
| WarnUnknownFormat (raw : json)
| WarnTransformFailed (exc : exn).

(** One entry of the trace: a call that left the module, or a value the
    generator [messages] handed to its caller. *)
Inductive event (record attrs : Type) : Type :=
| CallGet (url : string) (p : params)
| CallWsConnect (url : string) (p : params) (hd : headers)
| CallSendJson (h : handle) (msg : json)
| CallWsClose (h : handle)
| CallSleep (delay : Z)
| CallCleanRc (raw : json) (t0 : Z)
| CallApply (clean : record)
| CallAsyncSet (entity state : string) (a : attrs)
| Log (l : log_record)
| Yield (payload : json).
Arguments CallGet {record attrs}.
Arguments CallWsConnect {record attrs}.
Arguments CallSendJson {record attrs}.
Arguments CallWsClose {record attrs}.
Arguments CallSleep {record attrs}.
Arguments CallCleanRc {record attrs}.
Arguments CallApply {record attrs}.
Arguments CallAsyncSet {record attrs}.
Arguments Log {record attrs}.
Arguments Yield {record attrs}.

(** ** The client object *)

(** The three attributes the methods read and write ([_hass] and [_session]
    are the environment).  [_t0] and [_startup_cutoff] are naive datetimes,
    in microseconds. *)
Record client : Type := {
  _ws : option handle;
  _t0 : Z;
  _startup_cutoff : option Z
}.

Record state (W : Type) : Type := {
  self : client;
  world : W
}.
Arguments self {W}.
Arguments world {W}.

(** ** State, exceptions and trace *)

Section Monad.
Context {W record attrs : Type}.

Definition trace : Type := list (event record attrs).

(** A computation: from a state to its outcome, the state it leaves (also
    when it raises: Python rolls nothing back) and the events it caused,
    oldest first. *)
Definition M (A : Type) : Type := state W -> result A * state W * trace.

Definition ret {A} (a : A) : M A := fun s => (Ok a, s, []).

Definition raise {A} (e : exn) : M A := fun s => (Raise e, s, []).

Definition bind {A B} (m : M A) (f : A -> M B) : M B :=
  fun s =>
    let '(r, s1, t1) := m s in
    match r with
    | Ok a => let '(r2, s2, t2) := f a s1 in (r2, s2, t1 ++ t2)
    | Raise e => (Raise e, s1, t1)
    end.

(** A pure Python expression that may raise. *)
Definition lift {A} (r : result A) : M A := fun s => (r, s, []).

Definition emit (e : event record attrs) : M unit := fun s => (Ok tt, s, [e]).

(** A call into the environment, recorded as [e]. *)
Definition call {A} (e : event record attrs) (op : W -> result A * W) : M A :=
  fun s =>
    let '(r, w) := op (world s) in
    (r, {| self := self s; world := w |}, [e]).

Definition get_self : M client := fun s => (Ok (self s), s, []).

Definition put_self (c : client) : M unit :=
  fun s => (Ok tt, {| self := c; world := world s |}, []).

(** [try: m  except <class>: handler]. *)
Definition try_except {A} (catches : exn -> bool) (m : M A) (handler : exn -> M A) : M A :=
  fun s =>
    let '(r, s1, t1) := m s in
    match r with
    | Ok a => (Ok a, s1, t1)
    | Raise e =>
        if catches e
        then let '(r2, s2, t2) := handler e s1 in (r2, s2, t1 ++ t2)
        else (Raise e, s1, t1)
    end.

(** [for x in xs: body(x)], without [break]. *)
Fixpoint for_each {A} (xs : list A) (body : A -> M unit) : M unit :=
  match xs with
  | [] => ret tt
  | x :: rest => bind (body x) (fun _ => for_each rest body)
  end.

End Monad.

Declare Scope py_scope.
Delimit Scope py_scope with py.
Notation "x <- m ;; k" := (bind m (fun x => k))
  (at level 61, m at next level, right associativity) : py_scope.
Notation "m ;; k" := (bind m (fun _ => k))
  (at level 61, right associativity) : py_scope.

(** ** The methods of [SignalRClient] *)

Section Client.
Context {W record attrs : Type} {E : Env W record attrs} {K : Const}.
Local Open Scope py_scope.

Local Abbreviation M := (@M W record attrs).

(** [__init__]: no connection, [_t0] the clock at construction, no cutoff. *)
Definition init (w : W) : state W :=
  let '(now, w') := utcnow w in
  {| self := {| _ws := None; _t0 := now; _startup_cutoff := None |};
     world := w' |}.

(** Line 38. *)
Definition negotiate_params : params :=
  [("clientProtocol", JStr "1.5"); ("connectionData", JStr HUB_DATA)].

(** Lines 39-43 of [connect]: the negotiate request and what is read from
    its response, the token and the cookie. *)
Definition negotiate : M (json * option string) :=
  let p := negotiate_params in
  resp <- call (CallGet NEGOTIATE_URL p) (session_get NEGOTIATE_URL p) ;;
  lift (raise_for_status resp) ;;
  data <- lift (json_body resp) ;;
  token <- lift (Py.get data "ConnectionToken") ;;
  ret (token, set_cookie resp).

(** Lines 45-50: the fixed headers, and the cookie when it is truthy. *)
Definition connect_headers (cookie : option string) : headers :=
  [("User-Agent", "BestHTTP"); ("Accept-Encoding", "gzip,identity")]
  ++ match cookie with
     | Some EmptyString => []
     | Some c => [("Cookie", c)]
     | None => []
     end.

(** Lines 52-57. *)
Definition connect_params (token : json) : params :=
  [ ("transport", JStr "webSockets");
    ("clientProtocol", JStr "1.5");
    ("connectionToken", token);
    ("connectionData", JStr HUB_DATA) ].

Definition connect : M unit :=
  emit (Log DebugConnecting) ;;
  tc <- negotiate ;;
  let hd := connect_headers (snd tc) in
  let p := connect_params (fst tc) in
  h <- call (CallWsConnect CONNECT_URL p hd) (ws_connect CONNECT_URL p hd) ;;
  c <- get_self ;;
  put_self {| _ws := Some h; _t0 := _t0 c; _startup_cutoff := _startup_cutoff c |} ;;
  call (CallSendJson h SUBSCRIBE_MSG) (send_json h SUBSCRIBE_MSG) ;;
  now <- (fun s => let '(t, w) := utcnow (world s) in
                   (Ok t, {| self := self s; world := w |}, [])) ;;
  c <- get_self ;;
  put_self {| _ws := _ws c; _t0 := now; _startup_cutoff := _startup_cutoff c |} ;;
  c <- get_self ;;
  put_self {| _ws := _ws c; _t0 := _t0 c;
              _startup_cutoff := Some (_t0 c - thirty_seconds) |} ;;
  emit (Log DebugEstablished) ;;
  emit (Log DebugSubscribed).

(** The [while True] loop of [_ensure_connection], run for at most [fuel]
    attempts: [Some tt] when a connect succeeded and the method returned,
    [None] when the loop is still retrying after [fuel] failures. *)
Fixpoint ensure_connection_loop (fuel : nat) (delay : Z) : M (option unit) :=
  match fuel with
  | O => ret None
  | S fuel' =>
      again <- try_except is_Exception
                 (connect ;; ret false)
                 (fun err =>
                    emit (Log (WarnReconnectFailed err delay)) ;;
                    call (CallSleep delay) (sleep delay) ;;
                    ret true) ;;
      if again
      then ensure_connection_loop fuel' (Z.min (delay * BACK_OFF_FACTOR) MAX_RETRY_SEC)
      else ret (Some tt)
  end.

Definition _ensure_connection (fuel : nat) : M (option unit) :=
  ensure_connection_loop fuel FAST_RETRY_SEC.

Definition _async_update_flag_sensor (st : string) (a : attrs) : M unit :=
  call (CallAsyncSet "sensor.f1_flag" st a) (async_set "sensor.f1_flag" st a).

(** The [try] suite of [_handle_rc]; each [return] is the end of its
    branch. *)
Definition handle_rc_try (rc_raw : json) : M unit :=
  c <- get_self ;;
  clean <- call (CallCleanRc rc_raw (_t0 c)) (clean_rc rc_raw (_t0 c)) ;;
  match clean with
  | None => ret tt
  | Some clean =>
      c <- get_self ;;
      stale <- match _startup_cutoff c with
               | Some cutoff =>
                   rc <- lift (rc_time clean) ;;
                   lift (datetime_lt rc cutoff)
               | None => ret false
               end ;;
      if stale : bool then ret tt
      else
        machine <- (fun s => (Ok (flag_machine (world s)), s, [])) ;;
        if machine : bool
        then
          ca <- call (CallApply clean) (apply clean) ;;
          match fst ca with
          | Some changed => _async_update_flag_sensor changed (snd ca)
          | None => ret tt
          end
        else ret tt
  end.

Definition _handle_rc (rc_raw : json) : M unit :=
  try_except is_Exception
    (handle_rc_try rc_raw)
    (fun exc => emit (Log (WarnTransformFailed exc))).

(** The body of [for hub_msg in payload["M"]]. *)
Definition hub_entry (hub_msg : json) : M unit :=
  m <- lift (Py.get hub_msg "M") ;;
  if Py.eq_str m "feed"
  then
    a <- lift (Py.getitem hub_msg "A") ;;
    a0 <- lift (Py.getindex a 0) ;;
    if Py.eq_str a0 "RaceControlMessages"
    then
      a <- lift (Py.getitem hub_msg "A") ;;
      a1 <- lift (Py.getindex a 1) ;;
      raw <- lift (Py.getitem a1 "Messages") ;;
      match raw with
      | JArr items => for_each items _handle_rc
      | JObj fields => for_each (Py.values fields) _handle_rc
      | _ => emit (Log (WarnUnknownFormat raw))
      end
    else ret tt
  else ret tt.

(** Lines 96-122, for one parsed payload.  The answer is [false] when the
    [continue] of line 120 was taken, which skips [index += 1] and the
    [yield]. *)
Definition demux (payload : json) : M bool :=
  has_m <- lift (Py.contains "M" payload) ;;
  if has_m : bool
  then
    ms <- lift (Py.getitem payload "M") ;;
    hubs <- lift (Py.iter ms) ;;
    for_each hubs hub_entry ;;
    ret true
  else
    has_r <- lift (Py.contains "R" payload) ;;
    if has_r : bool
    then
      r <- lift (Py.getitem payload "R") ;;
      has_rc <- lift (Py.contains "RaceControlMessages" r) ;;
      if has_rc : bool
      then
        r <- lift (Py.getitem payload "R") ;;
        rc <- lift (Py.getitem r "RaceControlMessages") ;;
        raw <- lift (Py.getitem rc "Messages") ;;
        match raw with
        | JArr items => for_each items _handle_rc ;; ret true
        | JObj fields => for_each (Py.values fields) _handle_rc ;; ret true
        | _ => emit (Log (WarnUnknownFormat raw)) ;; ret false
        end
      else ret true
    else ret true.

(** The [async for] loop of [messages] over the frames the connection
    delivers until it ends, with the caller taking every payload the
    generator yields. *)
Fixpoint messages_loop (index : Z) (frames : list ws_msg) : M unit :=
  match frames with
  | [] => ret tt
  | msg :: rest =>
      match mtype msg with
      | TEXT =>
          match json_loads (data msg) with
          | Raise JSONDecodeError => messages_loop index rest
          | Raise e => raise e
          | Ok payload =>
              emit (Log (DebugPayload index payload)) ;;
              counted <- demux payload ;;
              if counted : bool
              then emit (Yield payload) ;; messages_loop (index + 1) rest
              else messages_loop index rest
          end
      | CLOSED | ERROR => ret tt
      | _ => messages_loop index rest
      end
  end.

Definition messages (frames : list ws_msg) : M unit :=
  c <- get_self ;;
  match _ws c with
  | None => ret tt
  | Some _ => messages_loop 0 frames
  end.

Definition close : M unit :=
  c <- get_self ;;
  match _ws c with
  | Some h =>
      call (CallWsClose h) (ws_close h) ;;
      c <- get_self ;;
      put_self {| _ws := None; _t0 := _t0 c; _startup_cutoff := _startup_cutoff c |}
  | None => ret tt
  end.

End Client.

(** ** Reading a run *)

Section Runs.
Context {W record attrs : Type}.

Definition outcome {A} (x : result A * state W * list (event record attrs)) : result A :=
  fst (fst x).

Definition after {A} (x : result A * state W * list (event record attrs)) : state W :=
  snd (fst x).

Definition events {A} (x : result A * state W * list (event record attrs))
  : list (event record attrs) :=
  snd x.

(** The raw items handed to per-item processing: [_handle_rc] passes its
    argument to [clean_rc] before anything else. *)
Fixpoint handed (t : list (event record attrs)) : list json :=
  match t with
  | [] => []
  | CallCleanRc raw _ :: rest => raw :: handed rest
  | _ :: rest => handed rest
  end.

(** The frames sent on a websocket. *)
Fixpoint sent (t : list (event record attrs)) : list (handle * json) :=
  match t with
  | [] => []
  | CallSendJson h msg :: rest => (h, msg) :: sent rest
  | _ :: rest => sent rest
  end.

(** The delays slept. *)
Fixpoint slept (t : list (event record attrs)) : list Z :=
  match t with
  | [] => []
  | CallSleep d :: rest => d :: slept rest
  | _ :: rest => slept rest
  end.

(** The records passed to the flag machine. *)
Fixpoint applied (t : list (event record attrs)) : list record :=
  match t with
  | [] => []
  | CallApply clean :: rest => clean :: applied rest
  | _ :: rest => applied rest
  end.

(** The streaming connections asked for. *)
Fixpoint ws_connects (t : list (event record attrs)) : list params :=
  match t with
  | [] => []
  | CallWsConnect _ p _ :: rest => p :: ws_connects rest
  | _ :: rest => ws_connects rest
  end.

(** The websocket closes asked for. *)
Fixpoint ws_closes (t : list (event record attrs)) : list handle :=
  match t with
  | [] => []
  | CallWsClose h :: rest => h :: ws_closes rest
  | _ :: rest => ws_closes rest
  end.

End Runs.

(** [except Exception] has something to catch: the result is a value or an
    instance of [Exception]. *)
Definition no_base_exception {A} (r : result A) : Prop :=
  match r with
  | Ok _ => True
  | Raise e => is_Exception e = true
  end.

(** The transform, the timestamp parse, the flag machine and the state
    registry raise instances of [Exception] only. *)
Definition collaborators_raise_Exception {W record attrs} (E : Env W record attrs) : Prop :=
  (forall raw t0 w, no_base_exception (fst (clean_rc raw t0 w))) /\
  (forall clean, no_base_exception (rc_time clean)) /\
  (forall clean w, no_base_exception (fst (apply clean w))) /\
  (forall entity st a w, no_base_exception (fst (async_set entity st a w))).

(** ** The two wire shapes *)

(** A hub-invocation entry of the incremental shape carrying [raw] as its
    "Messages". *)
Definition feed_entry (hub_msg raw : json) : Prop :=
  exists f second rest,
    hub_msg = JObj f /\
    Py.lookup "M" f = Some (JStr "feed") /\
    Py.lookup "A" f = Some (JArr (JStr "RaceControlMessages" :: JObj second :: rest)) /\
    Py.lookup "Messages" second = Some raw.

(** A payload of the snapshot shape carrying [raw] as its "Messages". *)
Definition snapshot (payload raw : json) : Prop :=
  exists f r t,
    payload = JObj f /\
    Py.lookup "M" f = None /\
    Py.lookup "R" f = Some (JObj r) /\
    Py.lookup "RaceControlMessages" r = Some (JObj t) /\
    Py.lookup "Messages" t = Some raw.

Definition is_list_or_dict (raw : json) : bool :=
  match raw with
  | JArr _ | JObj _ => true
  | _ => false
  end.


(** ** Notions used in the statements *)

(** The events of per-item processing and of the generator itself: calls to
    the transform, the flag machine and the state registry, log records and
    yields. *)
Definition handoff_event {record attrs} (e : event record attrs) : Prop :=
  match e with
  | CallCleanRc _ _ | CallApply _ | CallAsyncSet _ _ _ | Log _ | Yield _ => True
  | _ => False
  end.

(** A computation that causes handoff events only and leaves the client's
    attributes as they were, also when it raises. *)
Definition inert {W record attrs A} (m : @M W record attrs A) : Prop :=
  forall s, Forall handoff_event (events (m s)) /\ self (after (m s)) = self s.

(** The trace of a [connect] that returns, on handle [h]. *)
Definition connect_trace {record attrs} (token : json) (cookie : option string)
           (h : handle) : list (event record attrs) :=
  [ Log DebugConnecting;
    CallGet NEGOTIATE_URL negotiate_params;
    CallWsConnect CONNECT_URL (connect_params token) (connect_headers cookie);
    CallSendJson h SUBSCRIBE_MSG;
    Log DebugEstablished;
    Log DebugSubscribed ].

(** The outcome [r] with its value, if any, replaced by [b]. *)
Definition and_then {A B} (r : result A) (b : B) : result B :=
  match r with
  | Ok _ => Ok b
  | Raise e => Raise e
  end.

(** A run with the events [t] in front of it. *)
Definition prepend {W record attrs A} (t : list (event record attrs))
           (x : result A * state W * list (event record attrs))
  : result A * state W * list (event record attrs) :=
  (outcome x, after x, t ++ events x).

(** ** A scripted environment, for running the client on concrete inputs *)

Module Example.

(** A clean record: its parsed timestamp and its flag. *)
Record rc : Type := { utc : option datetime; flag : string }.

(** The world is the clock, in microseconds; every clock reading and every
    HTTP request advances it. *)
Record script : Type := {
  get_result : Z -> result response;
  connect_result : params -> result handle;
  send_result : result unit;
  close_result : result unit;
  sleep_result : result unit;
  loads : string -> result json;
  transform : json -> result (option rc);
  machine_present : bool;
  apply_result : rc -> result (option string * unit);
  publish_result : result unit
}.

Definition env (sc : script) : Env Z rc unit := {|
  session_get := fun _ _ w => (get_result sc w, w + 1);
  ws_connect := fun _ p _ w => (connect_result sc p, w);
  send_json := fun _ _ w => (send_result sc, w);
  ws_close := fun _ w => (close_result sc, w);
  utcnow := fun w => (w, w + 1);
  sleep := fun _ w => (sleep_result sc, w);
  json_loads := loads sc;
  clean_rc := fun raw _ w => (transform sc raw, w);
  rc_time := fun clean =>
    match utc clean with
    | Some t => Ok t
    | None => Raise ValueError
    end;
  flag_machine := fun _ => machine_present sc;
  apply := fun clean w => (apply_result sc clean, w);
  async_set := fun _ _ _ w => (publish_result sc, w)
|}.

Definition quoted (s : string) : string := (dquote ++ s ++ dquote)%string.

(** The text [{"M":[{"M":"feed"}]}]. *)
Definition feed_without_args_text : string :=
  ("{" ++ quoted "M" ++ ":[{" ++ quoted "M" ++ ":" ++ quoted "feed" ++ "}]}")%string.

Definition feed_without_args : json :=
  JObj [("M", JArr [JObj [("M", JStr "feed")]])].

(** The text [{"R":{"RaceControlMessages":{"Messages":[1000000000,5]}}}]. *)
Definition snapshot_text : string :=
  ("{" ++ quoted "R" ++ ":{" ++ quoted "RaceControlMessages" ++ ":{"
     ++ quoted "Messages" ++ ":[1000000000,5]}}}")%string.

Definition snapshot_payload : json :=
  JObj [("R", JObj [("RaceControlMessages",
                     JObj [("Messages", JArr [JInt 1000000000; JInt 5])])])].

(** [json.loads] on the texts used below; anything else is taken as
    malformed. *)
Definition loads_table (s : string) : result json :=
  if String.eqb s "null" then Ok JNull
  else if String.eqb s "{}" then Ok (JObj [])
  else if String.eqb s feed_without_args_text then Ok feed_without_args
  else if String.eqb s snapshot_text then Ok snapshot_payload
  else Raise JSONDecodeError.

(** A transform that reads a raw integer as a naive timestamp, a raw
    string as an offset-aware one it cannot place, drops [null], and fails
    on anything else. *)
Definition transform_int (raw : json) : result (option rc) :=
  match raw with
  | JInt n => Ok (Some {| utc := Some (Naive n); flag := "YELLOW" |})
  | JStr _ => Ok (Some {| utc := Some (Aware 0); flag := "RED" |})
  | JNull => Ok None
  | _ => Raise ValueError
  end.

(** A negotiate response with status 200 and the given body. *)
Definition ok_response (body : json) : response :=
  {| raise_for_status := Ok tt; json_body := Ok body; set_cookie := None |}.

(** Everything works: the token is "T1", the flag machine reports the flag
    of every record as a change. *)
Definition happy : script := {|
  get_result := fun _ => Ok (ok_response (JObj [("ConnectionToken", JStr "T1")]));
  connect_result := fun _ => Ok 7%nat;
  send_result := Ok tt;
  close_result := Ok tt;
  sleep_result := Ok tt;
  loads := loads_table;
  transform := transform_int;
  machine_present := true;
  apply_result := fun clean => Ok (Some (flag clean), tt);
  publish_result := Ok tt
|}.

(** As [happy], with no flag machine registered in [hass.data]. *)
Definition no_machine : script := {|
  get_result := get_result happy;
  connect_result := connect_result happy;
  send_result := Ok tt;
  close_result := Ok tt;
  sleep_result := Ok tt;
  loads := loads_table;
  transform := transform_int;
  machine_present := false;
  apply_result := apply_result happy;
  publish_result := Ok tt
|}.


(** Every negotiate request is answered with an error status. *)
Definition server_down : script := {|
  get_result := fun _ =>
    Ok {| raise_for_status := Raise ClientResponseError;
          json_body := Raise ClientResponseError;
          set_cookie := None |};
  connect_result := connect_result happy;
  send_result := Ok tt;
  close_result := Ok tt;
  sleep_result := Ok tt;
  loads := loads_table;
  transform := transform_int;
  machine_present := true;
  apply_result := apply_result happy;
  publish_result := Ok tt
|}.

(** The first two negotiate requests fail, the third succeeds. *)
Definition down_twice : script := {|
  get_result := fun w => if w <? 3 then get_result server_down w else get_result happy w;
  connect_result := connect_result happy;
  send_result := Ok tt;
  close_result := Ok tt;
  sleep_result := Ok tt;
  loads := loads_table;
  transform := transform_int;
  machine_present := true;
  apply_result := apply_result happy;
  publish_result := Ok tt
|}.

(** The flag machine and the state registry fail on every call. *)
Definition broken_consumer : script := {|
  get_result := get_result happy;
  connect_result := connect_result happy;
  send_result := Ok tt;
  close_result := Ok tt;
  sleep_result := Ok tt;
  loads := loads_table;
  transform := transform_int;
  machine_present := true;
  apply_result := fun _ => Raise (OtherException "RuntimeError");
  publish_result := Raise (OtherException "RuntimeError")
|}.

(** Retry constants: 5 s, doubled, up to 60 s. *)
Definition retry_5_60 : Const :=
  {| FAST_RETRY_SEC := 5; MAX_RETRY_SEC := 60; BACK_OFF_FACTOR := 2 |}.


(** A client connected on handle 7 at clock 1000000000, before any frame. *)
Definition connected : state Z :=
  {| self := {| _ws := Some 7%nat; _t0 := 1000000000;
                _startup_cutoff := Some (1000000000 - thirty_seconds) |};
     world := 1000000001 |}.

End Example.

(** ** Further readings of a run *)

Section MoreRuns.
Context {W record attrs : Type}.

(** The payloads the generator yielded. *)
Fixpoint yielded (t : list (event record attrs)) : list json :=
  match t with
  | [] => []
  | Yield payload :: rest => payload :: yielded rest
  | _ :: rest => yielded rest
  end.

(** The state updates asked of the registry: entity, state, attributes. *)
Fixpoint published (t : list (event record attrs)) : list (string * string * attrs) :=
  match t with
  | [] => []
  | CallAsyncSet entity st a :: rest => (entity, st, a) :: published rest
  | _ :: rest => published rest
  end.

(** The reconnect warnings: the error and the delay announced. *)
Fixpoint warned (t : list (event record attrs)) : list (exn * Z) :=
  match t with
  | [] => []
  | Log (WarnReconnectFailed err delay) :: rest => (err, delay) :: warned rest
  | _ :: rest => warned rest
  end.

(** The negotiate requests made. *)
Fixpoint negotiations (t : list (event record attrs)) : list params :=
  match t with
  | [] => []
  | CallGet _ p :: rest => p :: negotiations rest
  | _ :: rest => negotiations rest
  end.

(** The streaming connections asked for, with their headers. *)
Fixpoint ws_requests (t : list (event record attrs)) : list (string * params * headers) :=
  match t with
  | [] => []
  | CallWsConnect url p hd :: rest => (url, p, hd) :: ws_requests rest
  | _ :: rest => ws_requests rest
  end.

End MoreRuns.

(** The events [connect] can cause. *)
Definition connect_event {record attrs} (e : event record attrs) : Prop :=
  match e with
  | CallGet _ _ | CallWsConnect _ _ _ | CallSendJson _ _ => True
  | Log DebugConnecting | Log DebugEstablished | Log DebugSubscribed => True
  | _ => False
  end.

(** Every run of [m] has a trace with the property [Q]. *)
Definition always {W record attrs A} (Q : list (event record attrs) -> Prop)
           (m : @M W record attrs A) : Prop :=
  forall s, Q (events (m s)).

(** No state update without an [apply], no [apply] without a transform. *)
Definition balanced {record attrs} (t : list (event record attrs)) : Prop :=
  (List.length (published t) <= List.length (applied t) <= List.length (handed t))%nat.

(** Every state update of the trace is to the flag sensor. *)
Definition on_flag_sensor {record attrs} (t : list (event record attrs)) : Prop :=
  Forall (fun x => fst (fst x) = "sensor.f1_flag") (published t).

(** [l1] is [l2] with some elements left out. *)
Inductive subseq {A : Type} : list A -> list A -> Prop :=
| subseq_nil : subseq [] []
| subseq_skip (x : A) (l1 l2 : list A) : subseq l1 l2 -> subseq l1 (x :: l2)
| subseq_take (x : A) (l1 l2 : list A) : subseq l1 l2 -> subseq (x :: l1) (x :: l2).

(** The parsed bodies of the text frames of a stream, in arrival order. *)
Definition text_payloads {W record attrs} {E : Env W record attrs}
           (frames : list ws_msg) : list json :=
  flat_map (fun msg =>
              match mtype msg, json_loads (data msg) with
              | TEXT, Ok payload => [payload]
              | _, _ => []
              end) frames.

(** A frame the loop of [messages] passes over: neither text nor the end of
    the stream. *)
Definition passed_over (msg : ws_msg) : bool :=
  match mtype msg with
  | TEXT | CLOSED | ERROR => false
  | _ => true
  end.

(** A frame at which the loop of [messages] breaks. *)
Definition ends_stream (msg : ws_msg) : bool :=
  match mtype msg with
  | CLOSED | ERROR => true
  | _ => false
  end.

(** The delay after [k] failed attempts, in closed form. *)
Definition capped_delay {K : Const} (k : nat) : Z :=
  Z.min (FAST_RETRY_SEC * BACK_OFF_FACTOR ^ Z.of_nat k) MAX_RETRY_SEC.

(** A hub entry the incremental branch passes by: an object whose method is
    not "feed", or a feed whose first argument is not the topic. *)
Definition irrelevant_entry (hub_msg : json) : Prop :=
  exists f,
    hub_msg = JObj f /\
    ((exists m, Py.get (JObj f) "M" = Ok m /\ Py.eq_str m "feed" = false) \/
     (exists a a0,
         Py.lookup "M" f = Some (JStr "feed") /\
         Py.lookup "A" f = Some a /\
         Py.getindex a 0 = Ok a0 /\
         Py.eq_str a0 "RaceControlMessages" = false)).

(** ** Further scripted environments *)

Module Scenario.

(** As [Example.happy], but the subscribe send fails. *)
Definition send_fails : Example.script := {|
  Example.get_result := Example.get_result Example.happy;
  Example.connect_result := Example.connect_result Example.happy;
  Example.send_result := Raise (OtherException "ConnectionResetError");
  Example.close_result := Ok tt;
  Example.sleep_result := Ok tt;
  Example.loads := Example.loads_table;
  Example.transform := Example.transform_int;
  Example.machine_present := true;
  Example.apply_result := Example.apply_result Example.happy;
  Example.publish_result := Ok tt
|}.

(** As [Example.happy], but the negotiate response sets a cookie. *)
Definition with_cookie : Example.script := {|
  Example.get_result := fun _ =>
    Ok {| raise_for_status := Ok tt;
          json_body := Ok (JObj [("ConnectionToken", JStr "T1")]);
          set_cookie := Some "GCLB=abc" |};
  Example.connect_result := Example.connect_result Example.happy;
  Example.send_result := Ok tt;
  Example.close_result := Ok tt;
  Example.sleep_result := Ok tt;
  Example.loads := Example.loads_table;
  Example.transform := Example.transform_int;
  Example.machine_present := true;
  Example.apply_result := Example.apply_result Example.happy;
  Example.publish_result := Ok tt
|}.

(** As [Example.server_down], but the task is cancelled in the negotiate
    request. *)
Definition cancelled : Example.script := {|
  Example.get_result := fun _ => Raise (BaseOnly "CancelledError");
  Example.connect_result := Example.connect_result Example.happy;
  Example.send_result := Ok tt;
  Example.close_result := Ok tt;
  Example.sleep_result := Ok tt;
  Example.loads := Example.loads_table;
  Example.transform := Example.transform_int;
  Example.machine_present := true;
  Example.apply_result := Example.apply_result Example.happy;
  Example.publish_result := Ok tt
|}.

(** A client that holds handle 3 from an earlier connection. *)
Definition stale_handle : state Z :=
  {| self := {| _ws := Some 3%nat; _t0 := 10; _startup_cutoff := Some (10 - thirty_seconds) |};
     world := 100 |}.

(** A client whose first connect got as far as the websocket: a handle but
    no cutoff yet. *)
Definition half_connected : state Z :=
  {| self := {| _ws := Some 7%nat; _t0 := 0; _startup_cutoff := None |};
     world := 100 |}.

Definition text (body : string) : ws_msg := {| mtype := TEXT; data := body |}.
Definition control (t : WSMsgType) : ws_msg := {| mtype := t; data := EmptyString |}.

End Scenario.

(** * Properties *)

(** ** Reading traces piecewise *)

Section TraceLemmas.
Context {W record attrs : Type}.
Implicit Types t u : list (event record attrs).

Lemma handed_app t u : handed (t ++ u) = handed t ++ handed u.
Proof.
  induction t as [|e t IH]; simpl; [reflexivity|].
  destruct e; simpl; rewrite IH; reflexivity.
Qed.

Lemma sent_app t u : sent (t ++ u) = sent t ++ sent u.
Proof.
  induction t as [|e t IH]; simpl; [reflexivity|].
  destruct e; simpl; rewrite IH; reflexivity.
Qed.

Lemma slept_app t u : slept (t ++ u) = slept t ++ slept u.
Proof.
  induction t as [|e t IH]; simpl; [reflexivity|].
  destruct e; simpl; rewrite IH; reflexivity.
Qed.

Lemma applied_app t u : applied (t ++ u) = applied t ++ applied u.
Proof.
  induction t as [|e t IH]; simpl; [reflexivity|].
  destruct e; simpl; rewrite IH; reflexivity.
Qed.

Lemma ws_connects_app t u : ws_connects (t ++ u) = ws_connects t ++ ws_connects u.
Proof.
  induction t as [|e t IH]; simpl; [reflexivity|].
  destruct e; simpl; rewrite IH; reflexivity.
Qed.

End TraceLemmas.

(** Unfolds the monad operations at the head of a run. *)
Ltac run :=
  cbv beta delta [bind ret raise lift emit call get_self put_self try_except
                  outcome after events] in *;
  cbn beta iota zeta in *.

(** Reduces the run after a call's result is known. *)
Ltac step := cbn beta iota zeta delta [fst snd app self world].

Section Lifecycle.
Context {W record attrs : Type} {E : Env W record attrs}.


Lemma client_eta (c : client) :
  {| _ws := _ws c; _t0 := _t0 c; _startup_cutoff := _startup_cutoff c |} = c.
Proof. destruct c; reflexivity. Qed.

(** A fresh client holds no connection handle. *)
Lemma init_no_handle (w : W) : _ws (self (init w)) = None.
Proof. unfold init. destruct (utcnow w); reflexivity. Qed.

(** [close] without a handle does nothing. *)
Lemma close_without_handle (s : state W) :
  _ws (self s) = None -> close s = (Ok tt, s, []).
Proof.
  intros H. unfold close. run. rewrite H. reflexivity.
Qed.

(** [close] with a handle asks the websocket to close, once, and forgets
    the handle when that call returns. *)
Lemma close_with_handle (s : state W) (h : handle) :
  _ws (self s) = Some h ->
  fst (ws_close h (world s)) = Ok tt ->
  close s =
    (Ok tt,
     {| self := {| _ws := None; _t0 := _t0 (self s);
                   _startup_cutoff := _startup_cutoff (self s) |};
        world := snd (ws_close h (world s)) |},
     [CallWsClose h]).
Proof.
  intros H Hc. unfold close. run. rewrite H.
  destruct (ws_close h (world s)) as [r w]. simpl in *. subst r. reflexivity.
Qed.

(** After a [close] that returned, no handle is held. *)
Lemma close_drops_handle (s : state W) :
  outcome (close s) = Ok tt -> _ws (self (after (close s))) = None.
Proof.
  unfold close. run. destruct (_ws (self s)) as [h|] eqn:H.
  - destruct (ws_close h (world s)) as [[[]|e] w]; simpl; [reflexivity|discriminate].
  - intros _. exact H.
Qed.

(** C10.  [messages] on a client that holds no connection handle (a fresh
    client, or one that was closed) yields nothing, touches nothing and
    returns without an error, whatever frames a connection would have
    delivered. *)
Theorem messages_without_handle (frames : list ws_msg) (s : state W) :
  _ws (self s) = None -> messages frames s = (Ok tt, s, []).
Proof.
  intros H. unfold messages. run. rewrite H. reflexivity.
Qed.

(** C7.  [close] is idempotent.  From a state with no handle it returns
    without an error, changes nothing and asks for no close of a
    websocket.  From a state with handle [h] it asks for exactly one close
    of [h] and, that call returning, leaves the client without a handle;
    so a second [close] is a no-op and the two calls together release the
    connection once. *)
Theorem close_idempotent (s : state W) :
  (_ws (self s) = None -> close s = (Ok tt, s, [])) /\
  (forall h, _ws (self s) = Some h ->
             fst (ws_close h (world s)) = Ok tt ->
             outcome (close s) = Ok tt /\
             ws_closes (events (close s)) = [h]) /\
  (outcome (close s) = Ok tt ->
     _ws (self (after (close s))) = None /\
     close (after (close s)) = (Ok tt, after (close s), []) /\
     ws_closes (events (close s) ++ events (close (after (close s))))
       = ws_closes (events (close s))).
Proof.
  split; [apply close_without_handle|]. split.
  - intros h H Hc. rewrite (close_with_handle s h H Hc). split; reflexivity.
  - intros Hok. pose proof (close_drops_handle s Hok) as Hn.
    split; [exact Hn|].
    rewrite (close_without_handle _ Hn). split; [reflexivity|].
    unfold events at 2. simpl. rewrite app_nil_r. reflexivity.
Qed.




End Lifecycle.

(** ** What the frame loop can and cannot do *)

Section Inert.
Context {W record attrs : Type} {E : Env W record attrs}.
Local Abbreviation M := (@M W record attrs).

Lemma inert_ret {A} (a : A) : inert (W:=W) (record:=record) (attrs:=attrs) (ret a).
Proof. intros s; split; [constructor|reflexivity]. Qed.

Lemma inert_raise {A} (e : exn) : inert (@raise W record attrs A e).
Proof. intros s; split; [constructor|reflexivity]. Qed.

Lemma inert_lift {A} (r : result A) :
  inert (W:=W) (record:=record) (attrs:=attrs) (lift r).
Proof. intros s; split; [constructor|reflexivity]. Qed.

Lemma inert_get_self : inert (W:=W) (record:=record) (attrs:=attrs) get_self.
Proof. intros s; split; [constructor|reflexivity]. Qed.

Lemma inert_emit (e : event record attrs) :
  handoff_event e -> inert (W:=W) (emit e).
Proof. intros H s; split; [repeat constructor; exact H|reflexivity]. Qed.

Lemma inert_call {A} (e : event record attrs) (op : W -> result A * W) :
  handoff_event e -> inert (call e op).
Proof.
  intros H s. unfold call, events, after.
  destruct (op (world s)) as [r w]. simpl.
  split; [repeat constructor; exact H|reflexivity].
Qed.

Lemma inert_bind {A B} (m : M A) (f : A -> M B) :
  inert m -> (forall a, inert (f a)) -> inert (bind m f).
Proof.
  intros Hm Hf s. unfold bind, events, after in *.
  specialize (Hm s). destruct (m s) as [[r s1] t1]. unfold events, after in Hm; simpl in Hm.
  destruct Hm as [Ht Hs]. destruct r as [a|e]; simpl; [|split; assumption].
  specialize (Hf a s1). destruct (f a s1) as [[r2 s2] t2]. unfold events, after in *; simpl in *.
  destruct Hf as [Ht2 Hs2]. split.
  - apply Forall_app; split; assumption.
  - congruence.
Qed.

Lemma inert_try_except {A} (catches : exn -> bool) (m : M A) (handler : exn -> M A) :
  inert m -> (forall e, inert (handler e)) -> inert (try_except catches m handler).
Proof.
  intros Hm Hh s. unfold try_except, events, after in *.
  specialize (Hm s). destruct (m s) as [[r s1] t1]. unfold events, after in Hm; simpl in Hm.
  destruct Hm as [Ht Hs]. destruct r as [a|e]; simpl; [split; assumption|].
  destruct (catches e); simpl; [|split; assumption].
  specialize (Hh e s1). destruct (handler e s1) as [[r2 s2] t2]. unfold events, after in *; simpl in *.
  destruct Hh as [Ht2 Hs2]. split.
  - apply Forall_app; split; assumption.
  - congruence.
Qed.

Lemma inert_for_each {A} (xs : list A) (body : A -> M unit) :
  (forall x, inert (body x)) -> inert (for_each xs body).
Proof.
  intros Hb. induction xs as [|x rest IH]; simpl.
  - apply inert_ret.
  - apply inert_bind; [apply Hb|intros _; exact IH].
Qed.

Lemma inert_read {A} (f : state W -> A) :
  inert (record:=record) (attrs:=attrs) (fun s => (Ok (f s), s, [])).
Proof. intros s; split; [constructor|reflexivity]. Qed.

Create HintDb inert.

Ltac inert_step :=
  first
    [ solve [auto with inert nocore]
    | apply inert_ret | apply inert_raise | apply inert_lift | apply inert_get_self
    | apply inert_read
    | apply inert_emit; exact I
    | apply inert_call; exact I
    | apply inert_bind; [|intros ?]
    | apply inert_try_except; [|intros ?]
    | apply inert_for_each; intros ? ].

Lemma inert_handle_rc (rc_raw : json) : inert (_handle_rc rc_raw).
Proof.
  unfold _handle_rc, handle_rc_try, _async_update_flag_sensor.
  repeat inert_step.
  match goal with a : option record |- _ => destruct a end; repeat inert_step.
  - match goal with c : client |- _ => destruct (_startup_cutoff c) end;
      repeat inert_step.
  - match goal with b : bool |- _ => destruct b end; repeat inert_step.
    match goal with b : bool |- _ => destruct b end; repeat inert_step.
    match goal with p : (option string * attrs)%type |- _ =>
      destruct (fst p) end; repeat inert_step.
Qed.

Lemma inert_items (items : list json) : inert (for_each items _handle_rc).
Proof. apply inert_for_each, inert_handle_rc. Qed.

#[local] Hint Resolve inert_handle_rc inert_items : inert.

Lemma inert_hub_entry (hub_msg : json) : inert (hub_entry hub_msg).
Proof.
  unfold hub_entry. repeat inert_step.
  destruct (Py.eq_str _ "feed"); repeat inert_step.
  destruct (Py.eq_str _ "RaceControlMessages"); repeat inert_step.
  match goal with raw : json |- _ =>
    match goal with |- inert (match raw with _ => _ end) => destruct raw end
  end; repeat inert_step.
Qed.

#[local] Hint Resolve inert_hub_entry : inert.

Lemma inert_demux (payload : json) : inert (demux payload).
Proof.
  unfold demux. repeat inert_step.
  match goal with b : bool |- _ => destruct b end; repeat inert_step.
  match goal with b : bool |- _ => destruct b end; repeat inert_step.
  match goal with b : bool |- _ => destruct b end; repeat inert_step.
  match goal with raw : json |- _ =>
    match goal with |- inert (match raw with _ => _ end) => destruct raw end
  end; repeat inert_step.
Qed.

#[local] Hint Resolve inert_demux : inert.

Lemma inert_messages_loop (frames : list ws_msg) :
  forall index, inert (messages_loop index frames).
Proof.
  induction frames as [|msg rest IH]; intros index; simpl.
  - apply inert_ret.
  - destruct (mtype msg); try apply IH; try apply inert_ret.
    destruct (json_loads (data msg)) as [payload|e].
    + repeat inert_step.
      match goal with b : bool |- _ => destruct b end; repeat inert_step; apply IH.
    + destruct e; first [apply IH | apply inert_raise].
Qed.

Lemma inert_messages (frames : list ws_msg) : inert (messages frames).
Proof.
  unfold messages. repeat inert_step.
  match goal with c : client |- _ => destruct (_ws c) end.
  - apply inert_messages_loop.
  - apply inert_ret.
Qed.

Lemma handoff_events_send_nothing (t : list (event record attrs)) :
  Forall handoff_event t -> sent t = [].
Proof.
  induction 1 as [|e t He _ IH]; [reflexivity|].
  destruct e; simpl in *; try contradiction; exact IH.
Qed.

End Inert.

(** ** Connecting *)

Section Connect.
Context {W record attrs : Type} {E : Env W record attrs}.

(** A [connect] that returns went through every step: the negotiate
    response was successful and its body gave a token (possibly [None]),
    the websocket opened, the subscribe frame went out, and the clock was
    read for the new epoch. *)
Lemma connect_returns (s : state W) :
  outcome (connect s) = Ok tt ->
  exists resp w1 data token h w2 w3,
    session_get NEGOTIATE_URL negotiate_params (world s) = (Ok resp, w1) /\
    raise_for_status resp = Ok tt /\
    json_body resp = Ok data /\
    Py.get data "ConnectionToken" = Ok token /\
    ws_connect CONNECT_URL (connect_params token)
               (connect_headers (set_cookie resp)) w1 = (Ok h, w2) /\
    send_json h SUBSCRIBE_MSG w2 = (Ok tt, w3) /\
    after (connect s) =
      {| self := {| _ws := Some h; _t0 := fst (utcnow w3);
                    _startup_cutoff := Some (fst (utcnow w3) - thirty_seconds) |};
         world := snd (utcnow w3) |} /\
    events (connect s) = connect_trace token (set_cookie resp) h.
Proof.
  unfold connect, negotiate. run.
  destruct (session_get NEGOTIATE_URL negotiate_params (world s))
    as [[resp|e] w1] eqn:Hget; step; [|intros ?; discriminate].
  destruct (raise_for_status resp) as [[]|e] eqn:Hst; step; [|intros ?; discriminate].
  destruct (json_body resp) as [body|e] eqn:Hbody; step; [|intros ?; discriminate].
  destruct (Py.get body "ConnectionToken") as [token|e] eqn:Htok; step; [|intros ?; discriminate].
  destruct (ws_connect CONNECT_URL (connect_params token)
              (connect_headers (set_cookie resp)) w1) as [[h|e] w2] eqn:Hws;
    step; [|intros ?; discriminate].
  destruct (send_json h SUBSCRIBE_MSG w2) as [[[]|e] w3] eqn:Hsend; step; [|intros ?; discriminate].
  destruct (utcnow w3) as [now w4] eqn:Hnow; step.
  intros _. exists resp, w1, body, token, h, w2, w3.
  rewrite Hnow. repeat split; assumption || reflexivity.
Qed.

(** A [connect] that raises leaves the epoch alone: [_t0] and
    [_startup_cutoff] are written after the last call that can fail. *)
Lemma connect_raises_keeps_epoch (s : state W) (e : exn) :
  outcome (connect s) = Raise e ->
  _t0 (self (after (connect s))) = _t0 (self s) /\
  _startup_cutoff (self (after (connect s))) = _startup_cutoff (self s).
Proof.
  unfold connect, negotiate. run.
  destruct (session_get NEGOTIATE_URL negotiate_params (world s))
    as [[resp|e1] w1]; step; [|split; reflexivity].
  destruct (raise_for_status resp) as [[]|e1]; step; [|split; reflexivity].
  destruct (json_body resp) as [body|e1]; step; [|split; reflexivity].
  destruct (Py.get body "ConnectionToken") as [token|e1]; step; [|split; reflexivity].
  destruct (ws_connect CONNECT_URL (connect_params token)
              (connect_headers (set_cookie resp)) w1) as [[h|e1] w2];
    step; [|split; reflexivity].
  destruct (send_json h SUBSCRIBE_MSG w2) as [[[]|e1] w3]; step; [|split; reflexivity].
  destruct (utcnow w3) as [now w4]; step. discriminate.
Qed.



End Connect.

Section ConnectProperties.
Context {W record attrs : Type} {E : Env W record attrs} {K : Const}.

(** [connect] never sleeps. *)
Lemma connect_does_not_sleep (s : state W) : slept (events (connect s)) = [].
Proof.
  unfold connect, negotiate. run.
  destruct (session_get NEGOTIATE_URL negotiate_params (world s))
    as [[resp|e1] w1]; step; [|reflexivity].
  destruct (raise_for_status resp) as [[]|e1]; step; [|reflexivity].
  destruct (json_body resp) as [body|e1]; step; [|reflexivity].
  destruct (Py.get body "ConnectionToken") as [token|e1]; step; [|reflexivity].
  destruct (ws_connect CONNECT_URL (connect_params token)
              (connect_headers (set_cookie resp)) w1) as [[h|e1] w2];
    step; [|reflexivity].
  destruct (send_json h SUBSCRIBE_MSG w2) as [[[]|e1] w3]; step; [|reflexivity].
  destruct (utcnow w3) as [now w4]; reflexivity.
Qed.

(** One turn of the retry loop: what was slept is nothing (the connect
    returned, or raised past [except Exception]), or the current delay
    followed by what the next turns sleep. *)
Lemma ensure_connection_loop_slept (fuel : nat) (delay : Z) (s : state W) :
  slept (events (ensure_connection_loop (S fuel) delay s)) = [] \/
  slept (events (ensure_connection_loop (S fuel) delay s)) = [delay] \/
  exists s',
    slept (events (ensure_connection_loop (S fuel) delay s)) =
    delay :: slept (events (ensure_connection_loop fuel
                              (Z.min (delay * BACK_OFF_FACTOR) MAX_RETRY_SEC) s')).
Proof.
  cbn [ensure_connection_loop]. run.
  pose proof (connect_does_not_sleep s) as Hc. unfold events in Hc.
  destruct (connect s) as [[[[]|e] s1] t1]; step; cbn [snd] in Hc.
  - left. rewrite app_nil_r, app_nil_r. exact Hc.
  - destruct (is_Exception e); step.
    + destruct (sleep delay (world s1)) as [[[]|e2] w2]; step.
      * right; right.
        exists {| self := self s1; world := w2 |}.
        destruct (ensure_connection_loop fuel _ _) as [[r3 s3] t3]; step.
        rewrite !slept_app, Hc. reflexivity.
      * right; left. rewrite !slept_app, Hc. reflexivity.
    + left. exact Hc.
Qed.




(** C8.  The subscribe frame has the fixed shape; a [connect] that returns
    has sent it exactly once, on the handle it stored, as the call that
    follows [ws_connect] and with no frame consumed in between; and
    nothing else sends on the websocket: [messages], whatever frames
    arrive, and [close] send nothing. *)
Theorem subscribe_sent_once (s : state W) :
  SUBSCRIBE_MSG = JObj [ ("H", JStr "Streaming"); ("M", JStr "Subscribe");
                         ("A", JArr [JArr [JStr "RaceControlMessages"]]);
                         ("I", JInt 1) ] /\
  (outcome (connect s) = Ok tt ->
   exists token cookie h,
     _ws (self (after (connect s))) = Some h /\
     events (connect s) =
       [ Log DebugConnecting;
         CallGet NEGOTIATE_URL negotiate_params;
         CallWsConnect CONNECT_URL (connect_params token) (connect_headers cookie);
         CallSendJson h SUBSCRIBE_MSG;
         Log DebugEstablished;
         Log DebugSubscribed ] /\
     sent (events (connect s)) = [(h, SUBSCRIBE_MSG)]) /\
  (forall frames s', sent (events (messages frames s')) = []) /\
  (forall s', sent (events (close s')) = []).
Proof.
  split; [reflexivity|]. split; [|split].
  - intros Hok.
    destruct (connect_returns s Hok)
      as (resp & w1 & data & token & h & w2 & w3 & _ & _ & _ & _ & _ & _ & Hafter & Hev).
    exists token, (set_cookie resp), h.
    rewrite Hafter, Hev. repeat split.
  - intros frames s'. apply handoff_events_send_nothing, inert_messages.
  - intros s'. unfold close. run. destruct (_ws (self s')) as [h|]; [|reflexivity].
    destruct (ws_close h (world s')) as [[[]|e] w]; reflexivity.
Qed.


End ConnectProperties.

(** ** Per-item processing *)

Section Handoff.
Context {W record attrs : Type} {E : Env W record attrs}.

Ltac cases :=
  repeat (step;
          match goal with
          | |- context [match ?x with _ => _ end] =>
              lazymatch x with
              | context [match _ with _ => _ end] => fail
              | _ => destruct x eqn:?
              end
          end).

(** The try suite passes its argument to the transform, once. *)
Lemma handle_rc_try_hands (raw : json) (s : state W) :
  handed (events (handle_rc_try raw s)) = [raw].
Proof.
  unfold handle_rc_try, _async_update_flag_sensor. run.
  cases; reflexivity.
Qed.

Lemma handle_rc_hands (raw : json) (s : state W) :
  handed (events (_handle_rc raw s)) = [raw].
Proof.
  pose proof (handle_rc_try_hands raw s) as H.
  unfold _handle_rc. run.
  destruct (handle_rc_try raw s) as [[[[]|e] s1] t1]; step; cbn [snd] in H.
  - exact H.
  - destruct (is_Exception e); step; [|exact H].
    rewrite handed_app, H. reflexivity.
Qed.

(** What the handler adds when the try suite raises an [Exception]. *)
Lemma handle_rc_catches (raw : json) (s : state W) (e : exn) :
  outcome (handle_rc_try raw s) = Raise e ->
  is_Exception e = true ->
  _handle_rc raw s =
    (Ok tt, after (handle_rc_try raw s),
     events (handle_rc_try raw s) ++ [Log (WarnTransformFailed e)]).
Proof.
  unfold _handle_rc. run.
  destruct (handle_rc_try raw s) as [[r s1] t1]; step.
  intros -> ->. reflexivity.
Qed.

Lemma handle_rc_passes (raw : json) (s : state W) :
  outcome (handle_rc_try raw s) = Ok tt ->
  _handle_rc raw s = handle_rc_try raw s.
Proof.
  unfold _handle_rc. run.
  destruct (handle_rc_try raw s) as [[r s1] t1]; step.
  intros ->. reflexivity.
Qed.

Section Collaborators.
Hypothesis Hraise : collaborators_raise_Exception E.

(** Whatever the try suite raises is an [Exception]. *)
Lemma handle_rc_try_raises (raw : json) (s : state W) (e : exn) :
  outcome (handle_rc_try raw s) = Raise e -> is_Exception e = true.
Proof.
  destruct Hraise as (Hclean & Htime & Happly & Hset).
  unfold handle_rc_try, _async_update_flag_sensor. run.
  pose proof (Hclean raw (_t0 (self s)) (world s)) as H1.
  destruct (clean_rc raw (_t0 (self s)) (world s)) as [[[clean|]|e1] w1];
    step; cbn [fst no_base_exception] in H1;
    [|discriminate|intros [= <-]; exact H1].
  assert (Hstale : forall (r : result bool) e',
             r = match _startup_cutoff (self s) with
                 | Some cutoff =>
                     match rc_time clean with
                     | Ok rc => datetime_lt rc cutoff
                     | Raise e2 => Raise e2
                     end
                 | None => Ok false
                 end ->
             r = Raise e' -> is_Exception e' = true).
  { intros r e' -> H. destruct (_startup_cutoff (self s)); [|discriminate].
    pose proof (Htime clean) as H2.
    destruct (rc_time clean) as [[t|t]|e2]; cbn in *.
    - discriminate.
    - injection H as <-. reflexivity.
    - injection H as <-. exact H2. }
  destruct (_startup_cutoff (self s)) as [cutoff|]; step.
  - destruct (rc_time clean) as [rc|e2] eqn:Hrc; step.
    + destruct (datetime_lt rc cutoff) as [[|]|e3] eqn:Hlt; step.
      * discriminate.
      * clear Hstale. destruct (flag_machine w1); step; [|discriminate].
        pose proof (Happly clean w1) as H3.
        destruct (apply clean w1) as [[[[changed|] a]|e4] w2];
          step; cbn [fst no_base_exception] in H3.
        -- pose proof (Hset "sensor.f1_flag" changed a w2) as H4.
           destruct (async_set "sensor.f1_flag" changed a w2) as [[[]|e5] w3];
             step; cbn [fst no_base_exception] in H4;
             [discriminate|intros [= <-]; exact H4].
        -- discriminate.
        -- intros [= <-]. exact H3.
      * intros [= <-]. apply (Hstale _ e3 eq_refl eq_refl).
    + intros [= <-]. apply (Hstale _ e2 eq_refl eq_refl).
  - clear Hstale. destruct (flag_machine w1); step; [|discriminate].
    pose proof (Happly clean w1) as H3.
    destruct (apply clean w1) as [[[[changed|] a]|e4] w2];
      step; cbn [fst no_base_exception] in H3.
    + pose proof (Hset "sensor.f1_flag" changed a w2) as H4.
      destruct (async_set "sensor.f1_flag" changed a w2) as [[[]|e5] w3];
        step; cbn [fst no_base_exception] in H4;
        [discriminate|intros [= <-]; exact H4].
    + discriminate.
    + intros [= <-]. exact H3.
Qed.

(** [_handle_rc] returns. *)
Lemma handle_rc_returns (raw : json) (s : state W) :
  outcome (_handle_rc raw s) = Ok tt.
Proof.
  destruct (outcome (handle_rc_try raw s)) as [[]|e] eqn:Hout.
  - rewrite (handle_rc_passes raw s Hout). exact Hout.
  - rewrite (handle_rc_catches raw s e Hout (handle_rc_try_raises raw s e Hout)).
    reflexivity.
Qed.

(** The item loop visits every item, in order, and returns. *)
Lemma items_all_handled (items : list json) :
  forall s,
    outcome (for_each items _handle_rc s) = Ok tt /\
    handed (events (for_each items _handle_rc s)) = items.
Proof.
  induction items as [|x rest IH]; intros s; [split; reflexivity|].
  cbn [for_each]. run.
  pose proof (handle_rc_returns x s) as Hr.
  pose proof (handle_rc_hands x s) as Hh.
  unfold outcome, events in Hr, Hh.
  destruct (_handle_rc x s) as [[r s1] t1]. cbn [fst snd] in Hr, Hh. subst r.
  destruct (IH s1) as [Ho Hi]. unfold outcome, events in Ho, Hi.
  destruct (for_each rest _handle_rc s1) as [[r2 s2] t2]. cbn [fst snd] in *.
  split; [exact Ho|]. rewrite handed_app, Hh, Hi. reflexivity.
Qed.

End Collaborators.

End Handoff.

(** ** Demultiplexing *)

Section Demux.
Context {W record attrs : Type} {E : Env W record attrs}.

(** The item loop followed by [True]: lines 110-111 and 121-122 with the
    fall-through to the [yield]. *)
Lemma items_then_true (items : list json) (s : state W) :
  bind (for_each items _handle_rc) (fun _ => ret true) s =
    (and_then (outcome (for_each items _handle_rc s)) true,
     after (for_each items _handle_rc s),
     events (for_each items _handle_rc s)).
Proof.
  run. destruct (for_each items _handle_rc s) as [[[[]|e] s1] t1]; step;
    rewrite ?app_nil_r; reflexivity.
Qed.

(** [demux] on a snapshot: the "Messages" value decides. *)
Lemma demux_snapshot (payload raw : json) (s : state W) :
  snapshot payload raw ->
  demux payload s =
    match raw with
    | JArr items => bind (for_each items _handle_rc) (fun _ => ret true) s
    | JObj fields =>
        bind (for_each (Py.values fields) _handle_rc) (fun _ => ret true) s
    | _ => (Ok false, s, [Log (WarnUnknownFormat raw)])
    end.
Proof.
  intros (f & r & t & -> & HM & HR & HRC & HMsg).
  unfold demux. run.
  repeat (step; cbn [Py.contains Py.getitem]; rewrite ?HM, ?HR, ?HRC, ?HMsg).
  destruct raw; try reflexivity.
  - destruct (for_each items _handle_rc s) as [[[[]|e] s1] t1]; reflexivity.
  - destruct (for_each (Py.values fields) _handle_rc s) as [[[[]|e] s1] t1];
      reflexivity.
Qed.

(** [hub_entry] on a feed entry for the topic: the same decision. *)
Lemma hub_entry_feed (hub_msg raw : json) (s : state W) :
  feed_entry hub_msg raw ->
  hub_entry hub_msg s =
    match raw with
    | JArr items => for_each items _handle_rc s
    | JObj fields => for_each (Py.values fields) _handle_rc s
    | _ => (Ok tt, s, [Log (WarnUnknownFormat raw)])
    end.
Proof.
  intros (f & second & rest & -> & HM & HA & HMsg).
  unfold hub_entry. run.
  repeat (step; cbn [Py.get Py.getitem Py.getindex Py.eq_str nth_error];
          rewrite ?HM, ?HA, ?HMsg, ?String.eqb_refl).
  destruct raw; try reflexivity.
  - destruct (for_each items _handle_rc s) as [[r s1] t1]; reflexivity.
  - destruct (for_each (Py.values fields) _handle_rc s) as [[r s1] t1]; reflexivity.
Qed.

(** A payload the membership tests of lines 96 and 112 turn away goes
    straight to the [yield]. *)
Lemma demux_unrelated (payload : json) (s : state W) :
  Py.contains "M" payload = Ok false ->
  (Py.contains "R" payload = Ok false \/
   exists r, Py.getitem payload "R" = Ok r /\
             Py.contains "RaceControlMessages" r = Ok false) ->
  demux payload s = (Ok true, s, []).
Proof.
  intros HM HR. unfold demux. run. rewrite HM. step.
  destruct HR as [HR|(r & HR & HRC)].
  - rewrite HR. reflexivity.
  - destruct (Py.contains "R" payload) as [[|]|e] eqn:Hc; step.
    + rewrite HR. step. rewrite HRC. reflexivity.
    + reflexivity.
    + destruct payload; cbn in Hc, HR; discriminate.
Qed.

(** One text frame that parses, in front of a stream: the debug record,
    the demultiplexing, then the [yield] and the rest of the stream under
    the next index, or, after the [continue] of line 120, the rest of
    the stream under the same index; an exception of the demultiplexing
    ends the generator. *)
Lemma messages_loop_text (index : Z) (msg : ws_msg) (rest : list ws_msg)
      (payload : json) (s : state W) :
  mtype msg = TEXT ->
  json_loads (data msg) = Ok payload ->
  messages_loop index (msg :: rest) s =
    match outcome (demux payload s) with
    | Ok true =>
        prepend (Log (DebugPayload index payload)
                   :: events (demux payload s) ++ [Yield payload])
                (messages_loop (index + 1) rest (after (demux payload s)))
    | Ok false =>
        prepend (Log (DebugPayload index payload) :: events (demux payload s))
                (messages_loop index rest (after (demux payload s)))
    | Raise e =>
        (Raise e, after (demux payload s),
         Log (DebugPayload index payload) :: events (demux payload s))
    end.
Proof.
  intros Ht Hj. cbn [messages_loop]. rewrite Ht, Hj. unfold prepend. run.
  destruct (demux payload s) as [[[[|]|e] s1] t1]; step.
  - destruct (messages_loop (index + 1) rest s1) as [[r2 s2] t2]; step.
    rewrite <- app_assoc. reflexivity.
  - destruct (messages_loop index rest s1) as [[r2 s2] t2]; reflexivity.
  - reflexivity.
Qed.

End Demux.

(** ** The start-up filter *)

Section StartupFilter.
Context {W record attrs : Type} {E : Env W record attrs}.

(** A record timed before the cutoff is dropped after the transform. *)
Lemma handle_rc_stale (s : state W) (raw : json) (clean : record) (w' : W)
      (cutoff ts : Z) :
  _startup_cutoff (self s) = Some cutoff ->
  clean_rc raw (_t0 (self s)) (world s) = (Ok (Some clean), w') ->
  rc_time clean = Ok (Naive ts) ->
  ts < cutoff ->
  _handle_rc raw s =
    (Ok tt, {| self := self s; world := w' |}, [CallCleanRc raw (_t0 (self s))]).
Proof.
  intros Hcut Hclean Htime Hlt.
  unfold _handle_rc, handle_rc_try. run.
  rewrite Hclean. step. rewrite Hcut. step. rewrite Htime. step.
  cbn [datetime_lt]. apply Z.ltb_lt in Hlt. rewrite Hlt. reflexivity.
Qed.

(** A record timed at or after the cutoff goes to the flag machine, when
    one is registered. *)
Lemma handle_rc_fresh (s : state W) (raw : json) (clean : record) (w' : W)
      (cutoff ts : Z) :
  _startup_cutoff (self s) = Some cutoff ->
  clean_rc raw (_t0 (self s)) (world s) = (Ok (Some clean), w') ->
  rc_time clean = Ok (Naive ts) ->
  cutoff <= ts ->
  flag_machine w' = true ->
  applied (events (_handle_rc raw s)) = [clean] /\
  exists rest,
    events (_handle_rc raw s) =
    CallCleanRc raw (_t0 (self s)) :: CallApply clean :: rest.
Proof.
  intros Hcut Hclean Htime Hle Hm.
  unfold _handle_rc, handle_rc_try, _async_update_flag_sensor. run.
  rewrite Hclean. step. rewrite Hcut. step. rewrite Htime. step.
  cbn [datetime_lt]. apply Z.ltb_ge in Hle. rewrite Hle. step.
  rewrite Hm. step.
  destruct (apply clean w') as [[[[changed|] a]|e] w2]; step.
  - destruct (async_set "sensor.f1_flag" changed a w2) as [[[]|e] w3]; step.
    + split; [reflexivity|eexists; reflexivity].
    + destruct (is_Exception e); step; split; try reflexivity; eexists; reflexivity.
  - split; [reflexivity|eexists; reflexivity].
  - destruct (is_Exception e); step; split; try reflexivity; eexists; reflexivity.
Qed.

(** C3 (amended).  The cutoff is the epoch's: a [connect] that returns has
    read the clock and stored it as [_t0] with the cutoff thirty seconds
    before it; a [connect] that raises, and [messages], leave both as they
    were.  Against that cutoff, a record the transform returned whose
    timestamp is a naive datetime strictly before the cutoff is dropped
    with no call to [apply]; one whose timestamp is a naive datetime at or
    after the cutoff is passed to [apply], once, when a flag machine is
    registered. *)
Theorem startup_filter (s : state W) :
  (outcome (connect s) = Ok tt ->
   exists w, _t0 (self (after (connect s))) = fst (utcnow w) /\
             _startup_cutoff (self (after (connect s)))
               = Some (fst (utcnow w) - thirty_seconds)) /\
  (forall e, outcome (connect s) = Raise e ->
             _t0 (self (after (connect s))) = _t0 (self s) /\
             _startup_cutoff (self (after (connect s))) = _startup_cutoff (self s)) /\
  (forall frames, self (after (messages frames s)) = self s) /\
  (forall raw clean w' cutoff ts,
      _startup_cutoff (self s) = Some cutoff ->
      clean_rc raw (_t0 (self s)) (world s) = (Ok (Some clean), w') ->
      rc_time clean = Ok (Naive ts) ->
      (ts < cutoff ->
       outcome (_handle_rc raw s) = Ok tt /\
       applied (events (_handle_rc raw s)) = []) /\
      (cutoff <= ts -> flag_machine w' = true ->
       applied (events (_handle_rc raw s)) = [clean])).
Proof.
  split; [|split; [|split]].
  - intros Hok.
    destruct (connect_returns s Hok)
      as (resp & w1 & data & token & h & w2 & w3 & _ & _ & _ & _ & _ & _ & Hafter & _).
    exists w3. rewrite Hafter. split; reflexivity.
  - intros e. apply connect_raises_keeps_epoch.
  - intros frames. apply inert_messages.
  - intros raw clean w' cutoff ts Hcut Hclean Htime. split.
    + intros Hlt. rewrite (handle_rc_stale s raw clean w' cutoff ts); auto.
    + intros Hle Hm.
      apply (handle_rc_fresh s raw clean w' cutoff ts); assumption.
Qed.

End StartupFilter.

(** ** Isolation of per-item failures, and the two representations *)

Section FrameProperties.
Context {W record attrs : Type} {E : Env W record attrs}.

(** C5.  With collaborators that raise instances of [Exception]:
    [_handle_rc] returns for every raw item and leaves the client's
    attributes as they were; whatever its try suite raised, from the
    transform, the timestamp, [apply] or the state update, is logged as the
    last thing it does; the item loop goes through every item of its
    iterable, in order, and returns; and so a snapshot frame, and a feed
    entry, with a list or mapping of items is processed to its end and the
    frame loop goes on to the [yield] and the frames that follow. *)
Theorem collaborator_errors_are_isolated :
  collaborators_raise_Exception E ->
  (forall raw s,
      outcome (_handle_rc raw s) = Ok tt /\
      self (after (_handle_rc raw s)) = self s) /\
  (forall raw s e,
      outcome (handle_rc_try raw s) = Raise e ->
      _handle_rc raw s =
        (Ok tt, after (handle_rc_try raw s),
         events (handle_rc_try raw s) ++ [Log (WarnTransformFailed e)])) /\
  (forall items s,
      outcome (for_each items _handle_rc s) = Ok tt /\
      handed (events (for_each items _handle_rc s)) = items /\
      self (after (for_each items _handle_rc s)) = self s) /\
  (forall hub_msg raw s,
      feed_entry hub_msg raw -> outcome (hub_entry hub_msg s) = Ok tt) /\
  (forall index msg rest payload raw s,
      mtype msg = TEXT ->
      json_loads (data msg) = Ok payload ->
      snapshot payload raw ->
      is_list_or_dict raw = true ->
      messages_loop index (msg :: rest) s =
        prepend (Log (DebugPayload index payload)
                   :: events (demux payload s) ++ [Yield payload])
                (messages_loop (index + 1) rest (after (demux payload s)))).
Proof.
  intros Hraise. split; [|split; [|split; [|split]]].
  - intros raw s. split; [apply handle_rc_returns, Hraise|apply inert_handle_rc].
  - intros raw s e Hout. apply handle_rc_catches; [exact Hout|].
    apply (handle_rc_try_raises Hraise raw s e Hout).
  - intros items s. destruct (items_all_handled Hraise items s) as [Ho Hh].
    repeat split; [exact Ho|exact Hh|apply inert_items].
  - intros hub_msg raw s Hfeed. rewrite (hub_entry_feed hub_msg raw s Hfeed).
    destruct raw; try reflexivity; apply (items_all_handled Hraise).
  - intros index msg rest payload raw s Ht Hj Hsnap Hshape.
    rewrite (messages_loop_text index msg rest payload s Ht Hj).
    assert (Hout : outcome (demux payload s) = Ok true).
    { rewrite (demux_snapshot payload raw s Hsnap).
      destruct raw as [| | | | |xs|fs]; try discriminate; rewrite items_then_true;
        unfold outcome at 1; cbn [fst].
      - destruct (items_all_handled Hraise xs s) as [-> _]; reflexivity.
      - destruct (items_all_handled Hraise (Py.values fs) s) as [-> _];
          reflexivity. }
    rewrite Hout. reflexivity.
Qed.

(** C6.  With collaborators that raise instances of [Exception]: a
    "Messages" value that is the list [items] has exactly [items] handed
    to per-item processing, in list order; a "Messages" value that is a
    mapping has its values handed on, so the same items up to order when
    the mapping's values are those items; this in the snapshot shape and
    in a feed entry alike. *)
Theorem list_and_mapping_hand_same_items (items : list json)
        (fields : list (string * json)) :
  collaborators_raise_Exception E ->
  Permutation (Py.values fields) items ->
  (forall payload s, snapshot payload (JArr items) ->
                     handed (events (demux payload s)) = items) /\
  (forall payload s, snapshot payload (JObj fields) ->
                     Permutation (handed (events (demux payload s))) items) /\
  (forall hub_msg s, feed_entry hub_msg (JArr items) ->
                     handed (events (hub_entry hub_msg s)) = items) /\
  (forall hub_msg s, feed_entry hub_msg (JObj fields) ->
                     Permutation (handed (events (hub_entry hub_msg s))) items).
Proof.
  intros Hraise Hperm. split; [|split; [|split]].
  - intros payload s Hsnap. rewrite (demux_snapshot _ _ s Hsnap), items_then_true.
    apply (items_all_handled Hraise).
  - intros payload s Hsnap. rewrite (demux_snapshot _ _ s Hsnap), items_then_true.
    unfold events at 1. cbn [snd].
    destruct (items_all_handled Hraise (Py.values fields) s) as [_ ->]. exact Hperm.
  - intros hub_msg s Hfeed. rewrite (hub_entry_feed _ _ s Hfeed).
    apply (items_all_handled Hraise).
  - intros hub_msg s Hfeed. rewrite (hub_entry_feed _ _ s Hfeed).
    destruct (items_all_handled Hraise (Py.values fields) s) as [_ ->]. exact Hperm.
Qed.

(** C1 (amended).  A payload on which the membership tests are defined and
    turn it away (it holds no "M", and either no "R" or an "R" that holds
    no "RaceControlMessages") is processed without an error and without
    any per-item processing.  A snapshot, or a feed entry, whose
    "Messages" is neither a list nor a mapping gets a warning and nothing
    else: no item is processed and no error is raised; the feed entry's
    frame goes on with its next entry, the snapshot frame is left by
    [continue], so it is not yielded, and the frames that follow are
    processed from the same state. *)
Theorem unrecognised_frames_are_skipped (s : state W) :
  (forall payload,
      Py.contains "M" payload = Ok false ->
      (Py.contains "R" payload = Ok false \/
       exists r, Py.getitem payload "R" = Ok r /\
                 Py.contains "RaceControlMessages" r = Ok false) ->
      demux payload s = (Ok true, s, []) /\
      forall index msg rest,
        mtype msg = TEXT -> json_loads (data msg) = Ok payload ->
        messages_loop index (msg :: rest) s =
          prepend [Log (DebugPayload index payload); Yield payload]
                  (messages_loop (index + 1) rest s)) /\
  (forall hub_msg raw,
      feed_entry hub_msg raw -> is_list_or_dict raw = false ->
      hub_entry hub_msg s = (Ok tt, s, [Log (WarnUnknownFormat raw)])) /\
  (forall payload raw,
      snapshot payload raw -> is_list_or_dict raw = false ->
      demux payload s = (Ok false, s, [Log (WarnUnknownFormat raw)]) /\
      forall index msg rest,
        mtype msg = TEXT -> json_loads (data msg) = Ok payload ->
        messages_loop index (msg :: rest) s =
          prepend [Log (DebugPayload index payload); Log (WarnUnknownFormat raw)]
                  (messages_loop index rest s)).
Proof.
  split; [|split].
  - intros payload HM HR. pose proof (demux_unrelated payload s HM HR) as Hd.
    split; [exact Hd|]. intros index msg rest Ht Hj.
    rewrite (messages_loop_text index msg rest payload s Ht Hj), Hd. reflexivity.
  - intros hub_msg raw Hfeed Hshape. rewrite (hub_entry_feed _ _ s Hfeed).
    destruct raw; try reflexivity; discriminate.
  - intros payload raw Hsnap Hshape.
    assert (Hd : demux payload s = (Ok false, s, [Log (WarnUnknownFormat raw)])).
    { rewrite (demux_snapshot _ _ s Hsnap).
      destruct raw; try reflexivity; discriminate. }
    split; [exact Hd|]. intros index msg rest Ht Hj.
    rewrite (messages_loop_text index msg rest payload s Ht Hj), Hd. reflexivity.
Qed.

End FrameProperties.

(** * The client on the scripted environment *)

(** A scripted environment whose transform, flag machine and state registry
    raise instances of [Exception] only is one the collaborator assumption
    holds of. *)
Lemma scripted_collaborators (sc : Example.script) :
  (forall raw, no_base_exception (Example.transform sc raw)) ->
  (forall clean, no_base_exception (Example.apply_result sc clean)) ->
  no_base_exception (Example.publish_result sc) ->
  collaborators_raise_Exception (Example.env sc).
Proof.
  intros Ht Ha Hp. repeat split; cbn; auto.
  intros clean. destruct (Example.utc clean); [exact I|reflexivity].
Qed.

Lemma transform_int_raises_Exception (raw : json) :
  no_base_exception (Example.transform_int raw).
Proof. destruct raw; cbn; try exact I; reflexivity. Qed.

Lemma broken_consumer_collaborators :
  collaborators_raise_Exception (Example.env Example.broken_consumer).
Proof.
  apply scripted_collaborators; cbn.
  - apply transform_int_raises_Exception.
  - intros _. reflexivity.
  - reflexivity.
Qed.

Lemma happy_collaborators :
  collaborators_raise_Exception (Example.env Example.happy).
Proof.
  apply scripted_collaborators; cbn.
  - apply transform_int_raises_Exception.
  - intros _. exact I.
  - exact I.
Qed.

(** The delays of six failed attempts with 5 s, factor 2 and ceiling 60 s. *)
Example six_failures_delays :
  slept (events (_ensure_connection
                   (E := Example.env Example.server_down) (K := Example.retry_5_60)
                   6 (init (E := Example.env Example.server_down) 0)))
  = [5; 10; 20; 40; 60; 60].
Proof. vm_compute. reflexivity. Qed.

(** Negotiate fails twice, then the connection proceeds: the delays are the
    floor and the floor times the factor. *)
Example two_failures_then_connected :
  let run := _ensure_connection
               (E := Example.env Example.down_twice) (K := Example.retry_5_60)
               6 (init (E := Example.env Example.down_twice) 0) in
  outcome run = Ok (Some tt) /\ slept (events run) = [5; 10] /\
  sent (events run) = [(7%nat, SUBSCRIBE_MSG)].
Proof. vm_compute. repeat split. Qed.

(** A frame whose body is [null] ends the generator with a [TypeError]. *)
Example null_frame_raises :
  messages (E := Example.env Example.happy)
           [{| mtype := TEXT; data := "null" |}] Example.connected
  = (Raise TypeError, Example.connected, [Log (DebugPayload 0 JNull)]).
Proof. vm_compute. reflexivity. Qed.

(** A record with an offset-aware timestamp cannot be compared with the
    naive cutoff: the [TypeError] is caught and the record never reaches the
    flag machine. *)
Example aware_timestamp_is_dropped :
  _handle_rc (E := Example.env Example.happy) (JStr "z") Example.connected
  = (Ok tt, Example.connected,
     [CallCleanRc (JStr "z") 1000000000; Log (WarnTransformFailed TypeError)]).
Proof. vm_compute. reflexivity. Qed.

(** The snapshot of the scripted frames with a failing flag machine: each
    failure is logged, the next item is processed and the payload is
    yielded; the frame that follows is processed as well. *)
Example failing_consumer_run :
  messages (E := Example.env Example.broken_consumer)
           [{| mtype := TEXT; data := Example.snapshot_text |};
            {| mtype := TEXT; data := "{}" |}] Example.connected
  = (Ok tt, Example.connected,
     [Log (DebugPayload 0 Example.snapshot_payload);
      CallCleanRc (JInt 1000000000) 1000000000;
      CallApply {| Example.utc := Some (Naive 1000000000); Example.flag := "YELLOW" |};
      Log (WarnTransformFailed (OtherException "RuntimeError"));
      CallCleanRc (JInt 5) 1000000000;
      Yield Example.snapshot_payload;
      Log (DebugPayload 1 (JObj []));
      Yield (JObj [])]).
Proof. vm_compute. reflexivity. Qed.

(** ** The theorems at concrete inputs *)

Lemma messages_without_handle_witness :
  messages (E := Example.env Example.happy)
           [{| mtype := TEXT; data := Example.snapshot_text |}]
           (init (E := Example.env Example.happy) 0)
  = (Ok tt, init (E := Example.env Example.happy) 0, []).
Proof.
  apply (messages_without_handle (E := Example.env Example.happy)).
  reflexivity.
Defined.

Lemma close_idempotent_witness :
  let s := Example.connected in
  let once := close (E := Example.env Example.happy) s in
  outcome once = Ok tt /\
  ws_closes (events once) = [7%nat] /\
  _ws (self (after once)) = None /\
  close (E := Example.env Example.happy) (after once) = (Ok tt, after once, []).
Proof.
  cbv zeta.
  destruct (close_idempotent (E := Example.env Example.happy) Example.connected)
    as (_ & Hwith & Htwice).
  destruct (Hwith 7%nat eq_refl eq_refl) as [Hok Hone].
  destruct (Htwice Hok) as (Hnone & Hnoop & _).
  repeat split; assumption.
Defined.


Lemma subscribe_sent_once_witness :
  let s := init (E := Example.env Example.happy) 0 in
  exists h,
    _ws (self (after (connect (E := Example.env Example.happy) s))) = Some h /\
    sent (events (connect (E := Example.env Example.happy) s)) = [(h, SUBSCRIBE_MSG)].
Proof.
  cbv zeta.
  destruct (subscribe_sent_once (E := Example.env Example.happy)
              (init (E := Example.env Example.happy) 0)) as (_ & Hconnect & _).
  destruct (Hconnect eq_refl) as (token & cookie & h & Hws & _ & Hsent).
  exists h. split; assumption.
Defined.



Lemma startup_filter_witness :
  let fresh := {| Example.utc := Some (Naive 1000000000); Example.flag := "YELLOW" |} in
  let stale := {| Example.utc := Some (Naive 5); Example.flag := "YELLOW" |} in
  applied (events (_handle_rc (E := Example.env Example.happy)
                              (JInt 1000000000) Example.connected)) = [fresh] /\
  applied (events (_handle_rc (E := Example.env Example.happy)
                              (JInt 5) Example.connected))
    = @nil Example.rc.
Proof.
  cbv zeta.
  destruct (startup_filter (E := Example.env Example.happy) Example.connected)
    as (_ & _ & _ & Hfilter).
  split.
  - destruct (Hfilter (JInt 1000000000) _ _ 970000000 1000000000
                eq_refl eq_refl eq_refl) as [_ Hfresh].
    apply Hfresh; [lia|reflexivity].
  - destruct (Hfilter (JInt 5) _ _ 970000000 5 eq_refl eq_refl eq_refl)
      as [Hstale _].
    apply Hstale. lia.
Defined.

Lemma collaborator_errors_are_isolated_witness :
  outcome (_handle_rc (E := Example.env Example.broken_consumer)
                      (JInt 1000000000) Example.connected) = Ok tt /\
  handed (events (for_each [JInt 1000000000; JBool true; JInt 5]
                           (_handle_rc (E := Example.env Example.broken_consumer))
                           Example.connected))
    = [JInt 1000000000; JBool true; JInt 5].
Proof.
  destruct (collaborator_errors_are_isolated
              (E := Example.env Example.broken_consumer)
              broken_consumer_collaborators) as (Hone & _ & Hall & _).
  split.
  - apply Hone.
  - apply Hall.
Defined.

Lemma list_and_mapping_hand_same_items_witness :
  let items := [JInt 1; JInt 2] in
  let fields := [("b", JInt 2); ("a", JInt 1)] in
  let frame raw := JObj [("R", JObj [("RaceControlMessages",
                                      JObj [("Messages", raw)])])] in
  handed (events (demux (E := Example.env Example.happy)
                        (frame (JArr items)) Example.connected)) = items /\
  Permutation (handed (events (demux (E := Example.env Example.happy)
                                     (frame (JObj fields)) Example.connected)))
              items.
Proof.
  cbv zeta.
  destruct (list_and_mapping_hand_same_items
              (E := Example.env Example.happy)
              [JInt 1; JInt 2] [("b", JInt 2); ("a", JInt 1)]
              happy_collaborators (perm_swap _ _ _)) as (Hlist & Hdict & _).
  split.
  - apply Hlist. do 3 eexists. repeat split; reflexivity.
  - apply Hdict. do 3 eexists. repeat split; reflexivity.
Defined.

Lemma unrecognised_frames_are_skipped_witness :
  demux (E := Example.env Example.happy) (JObj []) Example.connected
    = (Ok true, Example.connected, []) /\
  demux (E := Example.env Example.happy)
        (JObj [("R", JObj [("RaceControlMessages",
                            JObj [("Messages", JStr "none")])])])
        Example.connected
    = (Ok false, Example.connected, [Log (WarnUnknownFormat (JStr "none"))]).
Proof.
  destruct (unrecognised_frames_are_skipped
              (E := Example.env Example.happy) Example.connected)
    as (Hother & _ & Hsnap).
  split.
  - apply (Hother (JObj [])); [reflexivity|left; reflexivity].
  - apply (Hsnap _ (JStr "none")); [|reflexivity].
    do 3 eexists. repeat split; reflexivity.
Defined.

(** ** Where the specification asks for more than the code does *)

(** C1, as stated, fails: the frame [{"M":[{"M":"feed"}]}] parses, matches
    neither shape, and ends the generator with the [KeyError] of
    [hub_msg["A"]]. *)
Lemma feed_entry_without_args_raises :
  json_loads (Env := Example.env Example.happy) Example.feed_without_args_text
    = Ok Example.feed_without_args /\
  messages (E := Example.env Example.happy)
           [{| mtype := TEXT; data := Example.feed_without_args_text |};
            {| mtype := TEXT; data := "{}" |}]
           Example.connected
  = (Raise KeyError, Example.connected,
     [Log (DebugPayload 0 Example.feed_without_args)]).
Proof. split; vm_compute; reflexivity. Qed.


(** C3, as stated, fails: with no flag machine registered, a record timed
    at the epoch start, after the cutoff, is not passed to [apply]. *)
Lemma fresh_record_without_machine_not_applied :
  let s := Example.connected in
  let clean := {| Example.utc := Some (Naive 1000000000); Example.flag := "YELLOW" |} in
  _startup_cutoff (self s) = Some 970000000 /\
  clean_rc (Env := Example.env Example.no_machine) (JInt 1000000000) (_t0 (self s))
           (world s) = (Ok (Some clean), world s) /\
  rc_time (Env := Example.env Example.no_machine) clean = Ok (Naive 1000000000) /\
  970000000 <= 1000000000 /\
  applied (events (_handle_rc (E := Example.env Example.no_machine)
                              (JInt 1000000000) s)) = [].
Proof. cbv zeta. repeat split; try reflexivity. lia. Qed.


(** * Further properties of the code *)

(** ** More of the trace, piecewise *)

Section MoreTraceLemmas.
Context {W record attrs : Type}.
Implicit Types t u : list (event record attrs).

Lemma ws_closes_app t u : ws_closes (t ++ u) = ws_closes t ++ ws_closes u.
Proof.
  induction t as [|e t IH]; simpl; [reflexivity|].
  destruct e; simpl; rewrite IH; reflexivity.
Qed.

Lemma yielded_app t u : yielded (t ++ u) = yielded t ++ yielded u.
Proof.
  induction t as [|e t IH]; simpl; [reflexivity|].
  destruct e; simpl; rewrite IH; reflexivity.
Qed.

Lemma published_app t u : published (t ++ u) = published t ++ published u.
Proof.
  induction t as [|e t IH]; simpl; [reflexivity|].
  destruct e; simpl; rewrite IH; reflexivity.
Qed.

Lemma warned_app t u : warned (t ++ u) = warned t ++ warned u.
Proof.
  induction t as [|e t IH]; simpl; [reflexivity|].
  destruct e as [| | | | | | | |l|]; simpl; try (rewrite IH; reflexivity).
  destruct l; simpl; rewrite IH; reflexivity.
Qed.

Lemma negotiations_app t u : negotiations (t ++ u) = negotiations t ++ negotiations u.
Proof.
  induction t as [|e t IH]; simpl; [reflexivity|].
  destruct e; simpl; rewrite IH; reflexivity.
Qed.

(** What a trace of connect events cannot contain. *)
Lemma connect_events_only t :
  Forall connect_event t ->
  ws_closes t = [] /\ slept t = [] /\ warned t = [] /\ handed t = [] /\
  applied t = [] /\ published t = [] /\ yielded t = [].
Proof.
  induction 1 as [|e t He _ IH]; [repeat split|].
  destruct e as [| | | | | | | |l|]; simpl in *; try contradiction; try exact IH.
  destruct l; simpl in *; try contradiction; exact IH.
Qed.

(** What a trace of handoff events cannot contain. *)
Lemma handoff_events_only t :
  Forall handoff_event t ->
  negotiations t = [] /\ ws_connects t = [] /\ sent t = [] /\
  ws_closes t = [] /\ slept t = [].
Proof.
  induction 1 as [|e t He _ IH]; [repeat split|].
  destruct e; simpl in *; try contradiction; exact IH.
Qed.

End MoreTraceLemmas.

(** ** [connect], step by step *)

Section ConnectSteps.
Context {W record attrs : Type} {E : Env W record attrs}.

Ltac connect_cases s :=
  unfold connect, negotiate; run;
  destruct (session_get NEGOTIATE_URL negotiate_params (world s))
    as [[resp|e1] w1] eqn:Hget; step;
  [ destruct (raise_for_status resp) as [[]|e1] eqn:Hst; step;
    [ destruct (json_body resp) as [body|e1] eqn:Hbody; step;
      [ destruct (Py.get body "ConnectionToken") as [token|e1] eqn:Htok; step;
        [ destruct (ws_connect CONNECT_URL (connect_params token)
                      (connect_headers (set_cookie resp)) w1)
            as [[h|e1] w2] eqn:Hws; step;
          [ destruct (send_json h SUBSCRIBE_MSG w2) as [[[]|e1] w3] eqn:Hsend; step;
            [ destruct (utcnow w3) as [now w4] eqn:Hnow; step | ]
          | ]
        | ]
      | ]
    | ]
  | ].

(** [connect] causes connect events only. *)
Lemma connect_events (s : state W) : Forall connect_event (events (connect s)).
Proof. connect_cases s; repeat constructor. Qed.

(** Every [connect] makes the negotiate request, once. *)
Lemma connect_negotiates_once (s : state W) :
  negotiations (events (connect s)) = [negotiate_params].
Proof. connect_cases s; reflexivity. Qed.

(** X5.  A [connect] that raises leaves the client in one of two states.
    Either nothing was sent and the client is as it was (the failure came
    before the websocket was stored), or the websocket had opened and the
    subscribe send on it raised: then the client holds the new handle, with
    the epoch of the connection before. *)
Theorem connect_failure_states (s : state W) (e : exn) :
  outcome (connect s) = Raise e ->
  (self (after (connect s)) = self s /\ sent (events (connect s)) = []) \/
  (exists h w,
      fst (send_json h SUBSCRIBE_MSG w) = Raise e /\
      sent (events (connect s)) = [(h, SUBSCRIBE_MSG)] /\
      self (after (connect s)) =
        {| _ws := Some h; _t0 := _t0 (self s);
           _startup_cutoff := _startup_cutoff (self s) |}).
Proof.
  connect_cases s; intros Hout; try discriminate Hout;
    try (left; split; reflexivity).
  right. exists h, w2. rewrite Hsend. injection Hout as <-.
  repeat split.
Qed.

(** X6.  The streaming connection is asked for with what this very call
    negotiated: at most one request, to the connect URL, with the token of
    the response's body and, as "Cookie" header, the response's cookie when
    there is a non-empty one; the two fixed headers are always there. *)
Theorem connect_passes_negotiated_credentials (s : state W) :
  (ws_requests (events (connect s)) = [] \/
   exists resp w1 data token,
     session_get NEGOTIATE_URL negotiate_params (world s) = (Ok resp, w1) /\
     raise_for_status resp = Ok tt /\
     json_body resp = Ok data /\
     Py.get data "ConnectionToken" = Ok token /\
     ws_requests (events (connect s)) =
       [(CONNECT_URL, connect_params token, connect_headers (set_cookie resp))]) /\
  (forall token, Py.lookup "connectionToken" (connect_params token) = Some token) /\
  (forall cookie c,
      In ("Cookie", c) (connect_headers cookie) <-> cookie = Some c /\ c <> EmptyString) /\
  (forall cookie,
      In ("User-Agent", "BestHTTP") (connect_headers cookie) /\
      In ("Accept-Encoding", "gzip,identity") (connect_headers cookie)).
Proof.
  split; [|split; [|split]].
  - connect_cases s; try (left; reflexivity);
      right; exists resp, w1, body, token; repeat split; assumption.
  - intros token. reflexivity.
  - intros cookie c. unfold connect_headers. split.
    + intros [H|[H|H]]; try discriminate H.
      destruct cookie as [[|a r]|]; simpl in H; try contradiction.
      destruct H as [H|[]]. injection H as <-. split; [reflexivity|discriminate].
    + intros [-> Hne]. destruct c as [|a r]; [contradiction|].
      right; right; left; reflexivity.
  - intros cookie. unfold connect_headers. split; simpl; auto.
Qed.

(** X7.  [connect] never closes a websocket: a client that reconnects while
    it holds a handle has the handle overwritten by the one [ws_connect]
    returned, and the websocket it held is not asked to close. *)
Theorem connect_replaces_handle_without_close (s : state W) :
  ws_closes (events (connect s)) = [] /\
  (outcome (connect s) = Ok tt ->
   exists token cookie w1 h w2,
     ws_connect CONNECT_URL (connect_params token) (connect_headers cookie) w1
       = (Ok h, w2) /\
     _ws (self (after (connect s))) = Some h).
Proof.
  split; [apply connect_events_only, connect_events|].
  intros Hok.
  destruct (connect_returns s Hok)
    as (resp & w1 & data & token & h & w2 & w3 & _ & _ & _ & _ & Hws & _ & Hafter & _).
  exists token, (set_cookie resp), w1, h, w2. split; [exact Hws|].
  rewrite Hafter. reflexivity.
Qed.

End ConnectSteps.

(** ** The retry loop, turn by turn *)

Section RetryLoop.
Context {W record attrs : Type} {E : Env W record attrs} {K : Const}.

Lemma after_triple {A} (r : result A) (s : state W) (t : list (event record attrs)) :
  after (r, s, t) = s.
Proof. reflexivity. Qed.

Lemma events_triple {A} (r : result A) (s : state W) (t : list (event record attrs)) :
  events (r, s, t) = t.
Proof. reflexivity. Qed.

Lemma outcome_triple {A} (r : result A) (s : state W) (t : list (event record attrs)) :
  outcome (r, s, t) = r.
Proof. reflexivity. Qed.

(** One turn of the loop of [_ensure_connection]. *)
Lemma ensure_connection_loop_turn (fuel : nat) (delay : Z) (s : state W) :
  ensure_connection_loop (S fuel) delay s =
    match outcome (connect s) with
    | Ok _ => (Ok (Some tt), after (connect s), events (connect s))
    | Raise e =>
        if is_Exception e
        then
          let failed := events (connect s)
                          ++ [Log (WarnReconnectFailed e delay); CallSleep delay] in
          let s1 := after (connect s) in
          match sleep delay (world s1) with
          | (Ok _, w) =>
              prepend failed
                (ensure_connection_loop fuel
                   (Z.min (delay * BACK_OFF_FACTOR) MAX_RETRY_SEC)
                   {| self := self s1; world := w |})
          | (Raise e2, w) => (Raise e2, {| self := self s1; world := w |}, failed)
          end
        else (Raise e, after (connect s), events (connect s))
    end.
Proof.
  cbn [ensure_connection_loop]. unfold prepend. run.
  destruct (connect s) as [[[[]|e] s1] t1]; step.
  - rewrite !app_nil_r. reflexivity.
  - destruct (is_Exception e); step; [|reflexivity].
    destruct (sleep delay (world s1)) as [[[]|e2] w2]; step.
    + destruct (ensure_connection_loop fuel _ _) as [[r3 s3] t3]; step.
      reflexivity.
    + reflexivity.
Qed.

Lemma capped_step (d F M P : Z) :
  1 <= F -> 1 <= P -> d <= M ->
  Z.min (Z.min (d * F) M * P) M = Z.min (d * (F * P)) M.
Proof.
  intros HF HP Hd.
  destruct (Z_le_gt_dec (d * F) M) as [Hle|Hgt].
  - rewrite (Z.min_l (d * F) M) by exact Hle. f_equal. ring.
  - rewrite (Z.min_r (d * F) M) by lia.
    assert (0 < d) by nia. assert (0 < M) by lia.
    rewrite Z.min_r by nia. rewrite Z.min_r by nia. reflexivity.
Qed.

Lemma pow_ge_1 (F : Z) (k : nat) : 1 <= F -> 1 <= F ^ Z.of_nat k.
Proof.
  intros HF. induction k as [|k IH]; [reflexivity|].
  rewrite Nat2Z.inj_succ, Z.pow_succ_r by lia. nia.
Qed.

(** From a current delay under the ceiling, the delays slept are the
    current delay and then its capped multiples. *)
Lemma ensure_connection_loop_closed_form (fuel : nat) :
  1 <= BACK_OFF_FACTOR ->
  forall delay s,
    delay <= MAX_RETRY_SEC ->
    slept (events (ensure_connection_loop fuel delay s)) =
    map (fun k => Z.min (delay * BACK_OFF_FACTOR ^ Z.of_nat k) MAX_RETRY_SEC)
        (seq 0 (List.length (slept (events (ensure_connection_loop fuel delay s))))).
Proof.
  intros HF. induction fuel as [|fuel IH]; intros delay s Hd; [reflexivity|].
  assert (H0 : Z.min (delay * BACK_OFF_FACTOR ^ Z.of_nat 0) MAX_RETRY_SEC = delay).
  { cbn [Z.of_nat]. rewrite Z.pow_0_r, Z.mul_1_r. apply Z.min_l, Hd. }
  destruct (ensure_connection_loop_slept fuel delay s) as [H|[H|[s' H]]];
    rewrite H; clear H.
  - reflexivity.
  - cbn [List.length seq map]. rewrite H0. reflexivity.
  - cbn [List.length seq map]. rewrite H0. f_equal.
    set (next := Z.min (delay * BACK_OFF_FACTOR) MAX_RETRY_SEC).
    rewrite (IH next s') at 1 by (unfold next; lia).
    rewrite <- seq_shift, map_map. apply map_ext. intros k.
    unfold next. rewrite Nat2Z.inj_succ, Z.pow_succ_r by lia.
    apply capped_step; [exact HF|apply pow_ge_1, HF|exact Hd].
Qed.

(** X1.  With a factor of at least one and a floor no larger than the
    ceiling, the [k]-th delay slept in one invocation of
    [_ensure_connection] is [min (D0 * F^k) Dmax], whatever the sign of the
    floor and however many attempts are made. *)
Theorem backoff_closed_form (fuel : nat) (s : state W) :
  1 <= BACK_OFF_FACTOR ->
  FAST_RETRY_SEC <= MAX_RETRY_SEC ->
  slept (events (_ensure_connection fuel s)) =
  map capped_delay (seq 0 (List.length (slept (events (_ensure_connection fuel s))))).
Proof.
  intros HF Hd. unfold _ensure_connection, capped_delay.
  apply ensure_connection_loop_closed_form; assumption.
Qed.

(** X2.  When [_ensure_connection] returns, the client is connected: it
    holds a handle, its cutoff is thirty seconds before its [_t0], and the
    trace ends with the steps of the connect that succeeded, so the last
    frame sent is the subscribe frame on the handle held. *)
Theorem ensure_connection_returns_connected (fuel : nat) (s : state W) :
  outcome (_ensure_connection fuel s) = Ok (Some tt) ->
  exists h token cookie earlier,
    _ws (self (after (_ensure_connection fuel s))) = Some h /\
    _startup_cutoff (self (after (_ensure_connection fuel s)))
      = Some (_t0 (self (after (_ensure_connection fuel s))) - thirty_seconds) /\
    events (_ensure_connection fuel s) = earlier ++ connect_trace token cookie h /\
    sent (events (_ensure_connection fuel s)) = sent earlier ++ [(h, SUBSCRIBE_MSG)].
Proof.
  unfold _ensure_connection. generalize FAST_RETRY_SEC as delay. revert s.
  induction fuel as [|fuel IH]; intros s delay; [discriminate|].
  rewrite ensure_connection_loop_turn.
  destruct (outcome (connect s)) as [[]|e] eqn:Hc.
  - intros _.
    destruct (connect_returns s Hc)
      as (resp & w1 & data & token & h & w2 & w3 & _ & _ & _ & _ & _ & _ & Hafter & Hev).
    exists h, token, (set_cookie resp), [].
    rewrite !after_triple, !events_triple, Hafter, Hev. repeat split.
  - destruct (is_Exception e); [|discriminate].
    cbv zeta. destruct (sleep delay (world (after (connect s)))) as [[[]|e2] w];
      [|discriminate].
    set (s' := {| self := self (after (connect s)); world := w |}).
    set (next := Z.min (delay * BACK_OFF_FACTOR) MAX_RETRY_SEC).
    set (failed := events (connect s) ++ _).
    intros Hout. unfold prepend in *. rewrite outcome_triple in Hout.
    destruct (IH s' next Hout) as (h & token & cookie & earlier & Hws & Hcut & Hev & Hsent).
    exists h, token, cookie, (failed ++ earlier).
    rewrite !after_triple, !events_triple, Hev.
    repeat split; try assumption.
    + rewrite app_assoc. reflexivity.
    + rewrite !sent_app. cbn [sent]. rewrite <- !app_assoc. reflexivity.
Qed.

(** X3.  The retry loop's bookkeeping, for every run: each delay slept was
    announced in the warning before it, so the delays slept are the delays
    warned of, in order; and every attempt negotiates afresh, so there is
    one negotiate request per sleep, plus one for the attempt that is last
    when the loop has returned or raised out of [connect]. *)
Theorem retries_are_logged_and_renegotiated (fuel : nat) (s : state W) :
  slept (events (_ensure_connection fuel s))
    = map snd (warned (events (_ensure_connection fuel s))) /\
  (List.length (slept (events (_ensure_connection fuel s)))
     <= List.length (negotiations (events (_ensure_connection fuel s)))
     <= S (List.length (slept (events (_ensure_connection fuel s)))))%nat /\
  (outcome (_ensure_connection fuel s) = Ok (Some tt) ->
   List.length (negotiations (events (_ensure_connection fuel s)))
     = S (List.length (slept (events (_ensure_connection fuel s))))).
Proof.
  unfold _ensure_connection. generalize FAST_RETRY_SEC as delay. revert s.
  induction fuel as [|fuel IH]; intros s delay.
  { cbn. repeat split; try lia. discriminate. }
  rewrite ensure_connection_loop_turn.
  destruct (connect_events_only _ (connect_events s))
    as (_ & Hslept & Hwarned & _).
  pose proof (connect_negotiates_once s) as Hneg.
  destruct (outcome (connect s)) as [[]|e] eqn:Hc.
  - rewrite !events_triple, !outcome_triple, Hslept, Hwarned, Hneg.
    cbn. repeat split; lia.
  - destruct (is_Exception e).
    + cbv zeta. destruct (sleep delay (world (after (connect s)))) as [[[]|e2] w].
      * set (s' := {| self := self (after (connect s)); world := w |}).
        set (next := Z.min (delay * BACK_OFF_FACTOR) MAX_RETRY_SEC).
        destruct (IH s' next) as (Hs & Hn & Hr).
        unfold prepend. rewrite !events_triple, !outcome_triple.
        rewrite !slept_app, !warned_app, !negotiations_app, Hslept, Hwarned, Hneg.
        cbn [slept warned negotiations app map snd List.length].
        rewrite <- Hs. repeat split; try lia.
        intros Hout. rewrite (Hr Hout). reflexivity.
      * rewrite !events_triple, !outcome_triple.
        rewrite !slept_app, !warned_app, !negotiations_app, Hslept, Hwarned, Hneg.
        cbn. repeat split; try lia. discriminate.
    + rewrite !events_triple, !outcome_triple, Hslept, Hwarned, Hneg.
      cbn. repeat split; try lia; discriminate.
Qed.

(** X4.  No [Exception] raised by [connect] gets out of
    [_ensure_connection]: when [asyncio.sleep] returns, as it does unless
    the task is cancelled, whatever the loop raises is not an instance of
    [Exception]; and such an error of the first attempt ends the loop at
    once, with no warning and no sleep. *)
Theorem ensure_connection_raises_no_Exception (fuel : nat) (s : state W) :
  (forall delay w, fst (sleep delay w) = Ok tt) ->
  (forall e, outcome (_ensure_connection fuel s) = Raise e -> is_Exception e = false) /\
  (forall e, outcome (connect s) = Raise e -> is_Exception e = false ->
             _ensure_connection (S fuel) s
               = (Raise e, after (connect s), events (connect s))).
Proof.
  intros Hsleep. split.
  - unfold _ensure_connection. generalize FAST_RETRY_SEC as delay. revert s.
    induction fuel as [|fuel IH]; intros s delay e; [discriminate|].
    rewrite ensure_connection_loop_turn.
    destruct (outcome (connect s)) as [[]|e1] eqn:Hc; [discriminate|].
    destruct (is_Exception e1) eqn:He1.
    + cbv zeta. pose proof (Hsleep delay (world (after (connect s)))) as Hs.
      destruct (sleep delay (world (after (connect s)))) as [r w].
      cbn [fst] in Hs. subst r.
      unfold prepend. rewrite outcome_triple. apply IH.
    + rewrite outcome_triple. intros [= <-]. exact He1.
  - intros e Hc He. unfold _ensure_connection.
    rewrite ensure_connection_loop_turn, Hc, He. reflexivity.
Qed.

End RetryLoop.

(** ** Properties of every trace of the frame loop *)

Section Always.
Context {W record attrs : Type} {E : Env W record attrs}.
Variable Q : list (event record attrs) -> Prop.
Hypothesis Q_nil : Q [].
Hypothesis Q_app : forall t u, Q t -> Q u -> Q (t ++ u).

Lemma always_pure {A} (m : @M W record attrs A) :
  (forall s, events (m s) = []) -> always Q m.
Proof. intros H s. rewrite H. exact Q_nil. Qed.

Lemma always_emit (e : event record attrs) : Q [e] -> always Q (emit (W := W) e).
Proof. intros H s. exact H. Qed.

Lemma always_call {A} (e : event record attrs) (op : W -> result A * W) :
  Q [e] -> always Q (call e op).
Proof.
  intros H s. unfold call, events. destruct (op (world s)). exact H.
Qed.

Lemma always_bind {A B} (m : @M W record attrs A) (f : A -> @M W record attrs B) :
  always Q m -> (forall a, always Q (f a)) -> always Q (bind m f).
Proof.
  intros Hm Hf s. unfold bind, events in *.
  specialize (Hm s). destruct (m s) as [[[a|e] s1] t1]; cbn [snd] in *; [|exact Hm].
  specialize (Hf a s1). destruct (f a s1) as [[r2 s2] t2]; cbn [snd] in *.
  apply Q_app; assumption.
Qed.

Lemma always_try_except {A} (catches : exn -> bool) (m : @M W record attrs A)
      (handler : exn -> @M W record attrs A) :
  always Q m -> (forall e, always Q (handler e)) ->
  always Q (try_except catches m handler).
Proof.
  intros Hm Hh s. unfold try_except, events in *.
  specialize (Hm s). destruct (m s) as [[[a|e] s1] t1]; cbn [snd] in *; [exact Hm|].
  destruct (catches e); cbn [snd]; [|exact Hm].
  specialize (Hh e s1). destruct (handler e s1) as [[r2 s2] t2]; cbn [snd] in *.
  apply Q_app; assumption.
Qed.

Lemma always_for_each {A} (xs : list A) (body : A -> @M W record attrs unit) :
  (forall x, always Q (body x)) -> always Q (for_each xs body).
Proof.
  intros Hb. induction xs as [|x rest IH]; cbn [for_each].
  - apply always_pure. reflexivity.
  - apply always_bind; [apply Hb|intros _; exact IH].
Qed.

Ltac always_step :=
  first
    [ assumption
    | apply always_pure; intros ?; reflexivity
    | apply always_emit; solve [auto]
    | apply always_call; solve [auto]
    | apply always_bind; [|intros ?]
    | apply always_try_except; [|intros ?]
    | apply always_for_each; intros ? ].

(** Per-item processing, event by event. *)
Lemma always_handle_rc (rc_raw : json) :
  (forall raw t0, Q [CallCleanRc raw t0]) ->
  (forall clean, Q [CallApply clean]) ->
  (forall entity st a, Q [CallAsyncSet entity st a]) ->
  (forall l, Q [Log l]) ->
  always Q (_handle_rc rc_raw).
Proof.
  intros Hclean Happly Hset Hlog.
  unfold _handle_rc, handle_rc_try, _async_update_flag_sensor.
  repeat always_step.
  match goal with a : option record |- _ => destruct a end; repeat always_step.
  - match goal with c : client |- _ => destruct (_startup_cutoff c) end;
      repeat always_step.
  - match goal with b : bool |- _ => destruct b end; repeat always_step.
    match goal with b : bool |- _ => destruct b end; repeat always_step.
    match goal with p : (option string * attrs)%type |- _ =>
      destruct (fst p) end; repeat always_step.
Qed.

Section FrameLoop.
Hypothesis Q_item : forall raw, always Q (_handle_rc raw).
Hypothesis Q_log : forall l, Q [Log l].

Lemma always_hub_entry (hub_msg : json) : always Q (hub_entry hub_msg).
Proof.
  unfold hub_entry. repeat always_step.
  destruct (Py.eq_str _ "feed"); repeat always_step.
  destruct (Py.eq_str _ "RaceControlMessages"); repeat always_step.
  match goal with raw : json |- _ =>
    match goal with |- always Q (match raw with _ => _ end) => destruct raw end
  end; try (apply always_for_each; exact Q_item); repeat always_step.
Qed.

Lemma always_demux (payload : json) : always Q (demux payload).
Proof.
  unfold demux. apply always_bind; [always_step|intros has_m].
  destruct has_m.
  - apply always_bind; [always_step|intros ms].
    apply always_bind; [always_step|intros hubs].
    apply always_bind; [|intros _; always_step].
    apply always_for_each. apply always_hub_entry.
  - apply always_bind; [always_step|intros has_r].
    destruct has_r; [|always_step].
    apply always_bind; [always_step|intros r].
    apply always_bind; [always_step|intros has_rc].
    destruct has_rc; [|always_step].
    apply always_bind; [always_step|intros r'].
    apply always_bind; [always_step|intros rc].
    apply always_bind; [always_step|intros raw].
    destruct raw;
      try (apply always_bind; [apply always_for_each; exact Q_item|intros _]);
      repeat always_step.
Qed.

Hypothesis Q_yield : forall payload, Q [Yield payload].

Lemma always_messages_loop (frames : list ws_msg) :
  forall index, always Q (messages_loop index frames).
Proof.
  induction frames as [|msg rest IH]; intros index; cbn [messages_loop].
  - always_step.
  - destruct (mtype msg); try apply IH; try always_step.
    destruct (json_loads (data msg)) as [payload|e].
    + apply always_bind; [always_step|intros _].
      apply always_bind; [apply always_demux|intros counted].
      destruct counted; [|apply IH].
      apply always_bind; [always_step|intros _; apply IH].
    + destruct e; first [apply IH | always_step].
Qed.

Lemma always_messages (frames : list ws_msg) : always Q (messages frames).
Proof.
  unfold messages. apply always_bind; [always_step|intros c].
  destruct (_ws c); [apply always_messages_loop|always_step].
Qed.

End FrameLoop.

End Always.

(** ** The frame loop *)

Section FrameLoopProperties.
Context {W record attrs : Type} {E : Env W record attrs}.

Lemma subseq_nil_l {A} (l : list A) : subseq [] l.
Proof. induction l; constructor; assumption. Qed.

Lemma balanced_nil : balanced (@nil (event record attrs)).
Proof. unfold balanced. cbn. lia. Qed.

Lemma balanced_app (t u : list (event record attrs)) :
  balanced t -> balanced u -> balanced (t ++ u).
Proof.
  unfold balanced. intros Ht Hu.
  rewrite published_app, applied_app, handed_app, !length_app. lia.
Qed.

Ltac item_cases :=
  repeat (step;
          match goal with
          | |- context [match ?x with _ => _ end] =>
              lazymatch x with
              | context [match _ with _ => _ end] => fail
              | _ => destruct x eqn:?
              end
          end).

(** One item: at most one [apply], after the transform, and at most one
    state update, after the [apply]. *)
Lemma handle_rc_balanced (raw : json) : always balanced (_handle_rc raw).
Proof.
  intros s. unfold _handle_rc, handle_rc_try, _async_update_flag_sensor, try_except.
  run. unfold balanced. item_cases; cbn; lia.
Qed.

Lemma on_flag_sensor_app (t u : list (event record attrs)) :
  on_flag_sensor t -> on_flag_sensor u -> on_flag_sensor (t ++ u).
Proof.
  unfold on_flag_sensor. intros Ht Hu. rewrite published_app.
  apply Forall_app; split; assumption.
Qed.

Lemma handle_rc_on_flag_sensor (raw : json) : always on_flag_sensor (_handle_rc raw).
Proof.
  intros s. unfold _handle_rc, handle_rc_try, _async_update_flag_sensor, try_except.
  run. unfold on_flag_sensor. item_cases; cbn; repeat constructor.
Qed.

(** Demultiplexing yields nothing itself. *)
Lemma demux_yields_nothing (payload : json) (s : state W) :
  yielded (events (demux payload s)) = [].
Proof.
  apply (always_demux (fun t => yielded t = [])); try reflexivity.
  - intros t u Ht Hu. rewrite yielded_app, Ht, Hu. reflexivity.
  - intros raw. apply always_handle_rc; try reflexivity.
    intros t u Ht Hu. rewrite yielded_app, Ht, Hu. reflexivity.
Qed.

Lemma messages_loop_yields (frames : list ws_msg) :
  forall index s,
    subseq (yielded (events (messages_loop index frames s))) (text_payloads frames).
Proof.
  induction frames as [|msg rest IH]; intros index s; [constructor|].
  unfold text_payloads. cbn [flat_map]. fold (text_payloads rest).
  destruct (mtype msg) eqn:Ht;
    try (cbn [messages_loop]; rewrite Ht; cbn [app]; apply IH);
    try (cbn [messages_loop]; rewrite Ht; apply subseq_nil_l).
  destruct (json_loads (data msg)) as [payload|e] eqn:Hj.
  - rewrite (messages_loop_text index msg rest payload s Ht Hj).
    pose proof (demux_yields_nothing payload s) as Hd.
    destruct (outcome (demux payload s)) as [[|]|e]; unfold prepend, events at 1;
      cbn [snd app yielded].
    + rewrite !yielded_app, Hd. cbn [yielded app]. apply subseq_take, IH.
    + rewrite yielded_app, Hd. cbn [app]. apply subseq_skip, IH.
    + rewrite Hd. apply subseq_nil_l.
  - cbn [messages_loop]. rewrite Ht, Hj. cbn [app].
    destruct e; first [apply IH | apply subseq_nil_l].
Qed.

(** X11.  [messages] yields only what arrived, in arrival order and each
    frame's payload at most once: the payloads yielded are the parsed bodies
    of the stream's text frames with some left out. *)
Theorem messages_yields_arrivals_in_order (frames : list ws_msg) (s : state W) :
  subseq (yielded (events (messages frames s))) (text_payloads frames).
Proof.
  unfold messages. run. destruct (_ws (self s)).
  - pose proof (messages_loop_yields frames 0 s) as H.
    unfold events in *. destruct (messages_loop 0 frames s) as [[r s1] t1].
    exact H.
  - apply subseq_nil_l.
Qed.

(** X12.  In every run of [messages], whatever the frames and the
    collaborators: no record reaches [apply] without an item handed to the
    transform for it, no state is written without an [apply] for it, and
    every state written is written to "sensor.f1_flag". *)
Theorem publish_follows_apply (frames : list ws_msg) (s : state W) :
  (List.length (published (events (messages frames s)))
     <= List.length (applied (events (messages frames s)))
     <= List.length (handed (events (messages frames s))))%nat /\
  Forall (fun x => fst (fst x) = "sensor.f1_flag")
         (published (events (messages frames s))).
Proof.
  split.
  - apply (always_messages balanced balanced_nil balanced_app handle_rc_balanced);
      intros; unfold balanced; cbn; lia.
  - apply (always_messages on_flag_sensor (Forall_nil _) on_flag_sensor_app
             handle_rc_on_flag_sensor);
      intros; constructor.
Qed.

(** X16.  [messages] stays off the network: whatever the frames, it makes no
    negotiate request, asks for no streaming connection, closes no
    websocket and never sleeps. *)
Theorem messages_makes_no_connection_calls (frames : list ws_msg) (s : state W) :
  negotiations (events (messages frames s)) = [] /\
  ws_connects (events (messages frames s)) = [] /\
  ws_closes (events (messages frames s)) = [] /\
  slept (events (messages frames s)) = [].
Proof.
  destruct (handoff_events_only _ (proj1 (inert_messages frames s)))
    as (Hn & Hc & _ & Hcl & Hs).
  repeat split; assumption.
Qed.

Lemma messages_loop_passes_over (frames : list ws_msg) :
  forall index s,
    messages_loop index frames s =
    messages_loop index (filter (fun m => negb (passed_over m)) frames) s.
Proof.
  induction frames as [|msg rest IH]; intros index s; [reflexivity|].
  cbn [filter]. unfold passed_over at 1.
  destruct (mtype msg) eqn:Ht; cbn [negb];
    try (cbn [messages_loop]; rewrite Ht; apply IH);
    cbn [messages_loop]; rewrite Ht; try reflexivity.
  destruct (json_loads (data msg)) as [payload|e].
  - run. destruct (demux payload s) as [[[[|]|e] s1] t1]; try reflexivity;
      rewrite IH; reflexivity.
  - destruct e; try reflexivity; apply IH.
Qed.

(** X8.  Frames that are neither text nor the end of the stream (binary,
    ping, pong, continuation, close, closing) change nothing: the run of
    [messages] over a stream is the run over the stream without them. *)
Theorem messages_passes_over_control_frames (frames : list ws_msg) (s : state W) :
  messages frames s = messages (filter (fun m => negb (passed_over m)) frames) s.
Proof.
  unfold messages. run. destruct (_ws (self s)); [|reflexivity].
  rewrite messages_loop_passes_over. reflexivity.
Qed.

Lemma messages_loop_stops (msg : ws_msg) (rest : list ws_msg) :
  ends_stream msg = true ->
  forall pre index s,
    messages_loop index (pre ++ msg :: rest) s = messages_loop index pre s.
Proof.
  intros Hend. induction pre as [|m pre IH]; intros index s.
  - cbn [app messages_loop]. unfold ends_stream in Hend.
    destruct (mtype msg); try discriminate; reflexivity.
  - cbn [app messages_loop].
    destruct (mtype m); try apply IH; try reflexivity.
    destruct (json_loads (data m)) as [payload|e].
    + run. destruct (demux payload s) as [[[[|]|e] s1] t1]; try reflexivity;
        rewrite IH; reflexivity.
    + destruct e; try reflexivity; apply IH.
Qed.

(** X9.  A CLOSED or ERROR frame ends the stream: nothing that arrives
    after it is parsed, processed or yielded, and the generator ends
    normally there if it got that far. *)
Theorem messages_stops_at_closed_or_error (pre : list ws_msg) (msg : ws_msg)
        (rest : list ws_msg) (s : state W) :
  ends_stream msg = true ->
  messages (pre ++ msg :: rest) s = messages pre s.
Proof.
  intros Hend. unfold messages. run. destruct (_ws (self s)); [|reflexivity].
  rewrite (messages_loop_stops msg rest Hend). reflexivity.
Qed.

(** X10.  An error of the demultiplexing, or of [json.loads] other than
    [JSONDecodeError], ends the generator at that frame: the error goes to
    the caller and no frame after it is looked at. *)
Theorem messages_ends_at_first_error (index : Z) (msg : ws_msg) (rest : list ws_msg)
        (s : state W) (e : exn) :
  mtype msg = TEXT ->
  (forall payload,
      json_loads (data msg) = Ok payload ->
      outcome (demux payload s) = Raise e ->
      messages_loop index (msg :: rest) s =
        (Raise e, after (demux payload s),
         Log (DebugPayload index payload) :: events (demux payload s))) /\
  (json_loads (data msg) = Raise e ->
   e <> JSONDecodeError ->
   messages_loop index (msg :: rest) s = (Raise e, s, [])).
Proof.
  intros Ht. split.
  - intros payload Hj Hout.
    rewrite (messages_loop_text index msg rest payload s Ht Hj), Hout. reflexivity.
  - intros Hj Hne. cbn [messages_loop]. rewrite Ht, Hj.
    destruct e; try reflexivity. contradiction.
Qed.

(** X13.  Without a cutoff (a client whose first connect did not complete)
    the start-up filter is off: the record's timestamp is not looked at, and
    every record the transform returns goes to the flag machine when one is
    registered. *)
Theorem no_cutoff_no_filter (s : state W) (raw : json) (clean : record) (w' : W) :
  _startup_cutoff (self s) = None ->
  clean_rc raw (_t0 (self s)) (world s) = (Ok (Some clean), w') ->
  flag_machine w' = true ->
  applied (events (_handle_rc raw s)) = [clean].
Proof.
  intros Hcut Hclean Hm.
  unfold _handle_rc, handle_rc_try, _async_update_flag_sensor. run.
  rewrite Hclean. step. rewrite Hcut. step. rewrite Hm. step.
  destruct (apply clean w') as [[[[changed|] a]|e] w2]; step.
  - destruct (async_set "sensor.f1_flag" changed a w2) as [[[]|e] w3]; step.
    + reflexivity.
    + destruct (is_Exception e); reflexivity.
  - reflexivity.
  - destruct (is_Exception e); reflexivity.
Qed.

(** X14.  With a cutoff set, a record whose timestamp cannot be compared
    with it is dropped with a warning and never reaches the flag machine:
    an offset-aware timestamp, whatever its instant, because comparing it
    with the naive cutoff raises [TypeError]; and a timestamp expression
    that raises an [Exception] (missing key, unparsable text). *)
Theorem uncomparable_timestamp_is_dropped (s : state W) (raw : json)
        (clean : record) (w' : W) (cutoff : Z) :
  _startup_cutoff (self s) = Some cutoff ->
  clean_rc raw (_t0 (self s)) (world s) = (Ok (Some clean), w') ->
  (forall t, rc_time clean = Ok (Aware t) ->
     _handle_rc raw s =
       (Ok tt, {| self := self s; world := w' |},
        [CallCleanRc raw (_t0 (self s)); Log (WarnTransformFailed TypeError)])) /\
  (forall e, rc_time clean = Raise e -> is_Exception e = true ->
     _handle_rc raw s =
       (Ok tt, {| self := self s; world := w' |},
        [CallCleanRc raw (_t0 (self s)); Log (WarnTransformFailed e)])).
Proof.
  intros Hcut Hclean. split.
  - intros t Haware. unfold _handle_rc, handle_rc_try. run.
    rewrite Hclean. step. rewrite Hcut. step. rewrite Haware. reflexivity.
  - intros e Hraise He. unfold _handle_rc, handle_rc_try. run.
    rewrite Hclean. step. rewrite Hcut. step. rewrite Hraise. step.
    rewrite He. reflexivity.
Qed.

Lemma hub_entry_irrelevant (hub_msg : json) (s : state W) :
  irrelevant_entry hub_msg -> hub_entry hub_msg s = (Ok tt, s, []).
Proof.
  intros (f & -> & [(m & Hget & Hne)|(a & a0 & HM & HA & H0 & Hne)]).
  - unfold hub_entry. run. rewrite Hget. step. rewrite Hne. reflexivity.
  - unfold hub_entry. run. cbn [Py.get Py.getitem]. rewrite HM. step.
    cbn [Py.eq_str]. rewrite String.eqb_refl. step. rewrite HA. step.
    rewrite H0. step. rewrite Hne. reflexivity.
Qed.

Lemma irrelevant_entries_do_nothing (hubs : list json) (s : state W) :
  Forall irrelevant_entry hubs -> for_each hubs hub_entry s = (Ok tt, s, []).
Proof.
  induction 1 as [|hub rest Hhub _ IH]; [reflexivity|].
  cbn [for_each]. run. rewrite (hub_entry_irrelevant hub s Hhub). step.
  rewrite IH. reflexivity.
Qed.

(** X17.  An incremental frame that carries only other hub invocations
    (entries whose method is not "feed", or feeds of another topic) is
    yielded untouched: no item is handed on, nothing is logged, no error is
    raised, also when the entries have no arguments at all. *)
Theorem other_hub_messages_are_passed_by (f : list (string * json))
        (hubs : list json) (s : state W) :
  Py.lookup "M" f = Some (JArr hubs) ->
  Forall irrelevant_entry hubs ->
  demux (JObj f) s = (Ok true, s, []).
Proof.
  intros HM Hall. unfold demux. run.
  repeat (step; cbn [Py.contains Py.getitem Py.iter]; rewrite ?HM).
  rewrite (irrelevant_entries_do_nothing hubs s Hall).
  reflexivity.
Qed.

(** X15.  The incremental branch comes first: what [demux] does with a
    payload that has an "M" key depends on the value of "M" alone, so a
    snapshot section in the same payload is never processed. *)
Theorem incremental_branch_takes_precedence (f f' : list (string * json))
        (ms : json) (s : state W) :
  Py.lookup "M" f = Some ms ->
  Py.lookup "M" f' = Some ms ->
  demux (JObj f) s = demux (JObj f') s.
Proof.
  intros HM HM'. unfold demux. run. cbn [Py.contains Py.getitem].
  rewrite HM, HM'. reflexivity.
Qed.

End FrameLoopProperties.

(** ** Operations in sequence *)

Section Sequences.
Context {W record attrs : Type} {E : Env W record attrs}.

(** When [ws.close()] raises, so does [close], before the handle is
    cleared. *)
Lemma close_when_ws_close_raises (s : state W) (h : handle) (e : exn) (w : W) :
  _ws (self s) = Some h ->
  ws_close h (world s) = (Raise e, w) ->
  close s = (Raise e, {| self := self s; world := w |}, [CallWsClose h]).
Proof.
  intros Hws Hclose. unfold close. run. rewrite Hws, Hclose. reflexivity.
Qed.

(** X18.  [connect] then [close]: the websocket asked to close is the one
    the subscribe frame went out on; when that call returns the client holds
    no handle but keeps the epoch of the connection, and [messages] then
    yields nothing; when that call raises, [close] raises the same error and
    the client still holds the handle. *)
Theorem close_after_connect (s : state W) :
  outcome (connect s) = Ok tt ->
  exists h,
    sent (events (connect s)) = [(h, SUBSCRIBE_MSG)] /\
    ws_closes (events (close (after (connect s)))) = [h] /\
    (outcome (close (after (connect s))) = Ok tt ->
     _ws (self (after (close (after (connect s))))) = None /\
     _t0 (self (after (close (after (connect s)))))
       = _t0 (self (after (connect s))) /\
     _startup_cutoff (self (after (close (after (connect s)))))
       = _startup_cutoff (self (after (connect s))) /\
     forall frames,
       messages frames (after (close (after (connect s))))
         = (Ok tt, after (close (after (connect s))), [])) /\
    (forall e, outcome (close (after (connect s))) = Raise e ->
               _ws (self (after (close (after (connect s))))) = Some h).
Proof.
  intros Hok.
  destruct (connect_returns s Hok)
    as (resp & w1 & data & token & h & w2 & w3 & _ & _ & _ & _ & _ & _ & Hafter & Hev).
  exists h. rewrite Hev. split; [reflexivity|].
  assert (Hws : _ws (self (after (connect s))) = Some h)
    by (rewrite Hafter; reflexivity).
  destruct (ws_close h (world (after (connect s)))) as [[[]|e] w4] eqn:Hclose.
  - rewrite (close_with_handle _ h Hws) by (rewrite Hclose; reflexivity).
    rewrite events_triple, after_triple, outcome_triple.
    split; [reflexivity|]. split; [|intros e0 Hx; discriminate Hx].
    intros _. split; [reflexivity|]. split; [reflexivity|]. split; [reflexivity|].
    intros frames. unfold messages. run. reflexivity.
  - rewrite (close_when_ws_close_raises _ h e w4 Hws Hclose).
    rewrite events_triple, after_triple, outcome_triple.
    split; [reflexivity|]. split; [intros Hx; discriminate Hx|].
    intros e0 _. exact Hws.
Qed.

(** X19.  What is written to the state registry is what the flag machine
    reported: for a record that passes the start-up filter, with a flag
    machine registered, a changed state [st] with attributes [a] returned
    by [apply] is written once, to "sensor.f1_flag", as [st] with [a]; and
    when [apply] reports no change ([None]), nothing is written. *)
Theorem state_change_is_published (s : state W) (raw : json) (clean : record)
        (w' w2 : W) (cutoff ts : Z) (changed : option string) (a : attrs) :
  _startup_cutoff (self s) = Some cutoff ->
  clean_rc raw (_t0 (self s)) (world s) = (Ok (Some clean), w') ->
  rc_time clean = Ok (Naive ts) ->
  cutoff <= ts ->
  flag_machine w' = true ->
  apply clean w' = (Ok (changed, a), w2) ->
  published (events (_handle_rc raw s)) =
    match changed with
    | Some st => [("sensor.f1_flag", st, a)]
    | None => []
    end.
Proof.
  intros Hcut Hclean Htime Hle Hm Happly.
  unfold _handle_rc, handle_rc_try, _async_update_flag_sensor. run.
  rewrite Hclean. step. rewrite Hcut. step. rewrite Htime. step.
  cbn [datetime_lt]. apply Z.ltb_ge in Hle. rewrite Hle. step.
  rewrite Hm. step. rewrite Happly. step.
  destruct changed as [st|]; step; [|reflexivity].
  destruct (async_set "sensor.f1_flag" st a w2) as [[[]|e] w3]; step.
  - reflexivity.
  - destruct (is_Exception e); reflexivity.
Qed.

End Sequences.

(** ** The further properties at concrete inputs *)

Lemma backoff_closed_form_witness :
  slept (events (_ensure_connection
                   (E := Example.env Example.server_down) (K := Example.retry_5_60)
                   6 (init (E := Example.env Example.server_down) 0)))
  = map (capped_delay (K := Example.retry_5_60)) (seq 0 6).
Proof.
  rewrite (backoff_closed_form (E := Example.env Example.server_down)
             (K := Example.retry_5_60) 6
             (init (E := Example.env Example.server_down) 0));
    [|cbn; lia|cbn; lia].
  rewrite six_failures_delays. reflexivity.
Defined.

Lemma ensure_connection_returns_connected_witness :
  let run := _ensure_connection
               (E := Example.env Example.down_twice) (K := Example.retry_5_60)
               6 (init (E := Example.env Example.down_twice) 0) in
  exists h token cookie earlier,
    _ws (self (after run)) = Some h /\
    _startup_cutoff (self (after run)) = Some (_t0 (self (after run)) - thirty_seconds) /\
    events run = earlier ++ connect_trace token cookie h /\
    sent (events run) = sent earlier ++ [(h, SUBSCRIBE_MSG)].
Proof.
  cbv zeta.
  apply (ensure_connection_returns_connected
           (E := Example.env Example.down_twice) (K := Example.retry_5_60)).
  reflexivity.
Defined.

Lemma retries_are_logged_and_renegotiated_witness :
  let run := _ensure_connection
               (E := Example.env Example.down_twice) (K := Example.retry_5_60)
               6 (init (E := Example.env Example.down_twice) 0) in
  slept (events run) = map snd (warned (events run)) /\
  List.length (negotiations (events run)) = S (List.length (slept (events run))).
Proof.
  cbv zeta.
  destruct (retries_are_logged_and_renegotiated
              (E := Example.env Example.down_twice) (K := Example.retry_5_60)
              6 (init (E := Example.env Example.down_twice) 0)) as (Hlog & _ & Hret).
  split; [exact Hlog|]. apply Hret. reflexivity.
Defined.

Lemma ensure_connection_raises_no_Exception_witness :
  let s := init (E := Example.env Scenario.cancelled) 0 in
  _ensure_connection (E := Example.env Scenario.cancelled) (K := Example.retry_5_60) 3 s
  = (Raise (BaseOnly "CancelledError"),
     after (connect (E := Example.env Scenario.cancelled) s),
     events (connect (E := Example.env Scenario.cancelled) s)).
Proof.
  cbv zeta.
  apply (ensure_connection_raises_no_Exception
           (E := Example.env Scenario.cancelled) (K := Example.retry_5_60)).
  - intros delay w. reflexivity.
  - reflexivity.
  - reflexivity.
Defined.

Lemma connect_failure_states_witness :
  let s := init (E := Example.env Scenario.send_fails) 0 in
  _ws (self (after (connect (E := Example.env Scenario.send_fails) s))) = Some 7%nat /\
  _startup_cutoff (self (after (connect (E := Example.env Scenario.send_fails) s))) = None.
Proof.
  cbv zeta.
  destruct (connect_failure_states (E := Example.env Scenario.send_fails)
              (init (E := Example.env Scenario.send_fails) 0)
              (OtherException "ConnectionResetError") eq_refl)
    as [[_ Hsent]|(h & w & _ & _ & _)].
  - discriminate Hsent.
  - split; reflexivity.
Defined.

Lemma connect_passes_negotiated_credentials_witness :
  ws_requests (events (connect (E := Example.env Scenario.with_cookie)
                               (init (E := Example.env Scenario.with_cookie) 0)))
    = [(CONNECT_URL, connect_params (JStr "T1"), connect_headers (Some "GCLB=abc"))] /\
  In ("Cookie", "GCLB=abc") (connect_headers (Some "GCLB=abc")).
Proof.
  destruct (connect_passes_negotiated_credentials
              (E := Example.env Scenario.with_cookie)
              (init (E := Example.env Scenario.with_cookie) 0))
    as (_ & _ & Hcookie & _).
  split; [reflexivity|].
  apply Hcookie. split; [reflexivity|discriminate].
Defined.

Lemma connect_replaces_handle_without_close_witness :
  _ws (self Scenario.stale_handle) = Some 3%nat /\
  ws_closes (events (connect (E := Example.env Example.happy) Scenario.stale_handle)) = [] /\
  _ws (self (after (connect (E := Example.env Example.happy) Scenario.stale_handle)))
    = Some 7%nat.
Proof.
  destruct (connect_replaces_handle_without_close
              (E := Example.env Example.happy) Scenario.stale_handle) as [Hnone Hnew].
  destruct (Hnew eq_refl) as (token & cookie & w1 & h & w2 & _ & _).
  split; [reflexivity|]. split; [exact Hnone|reflexivity].
Defined.

Lemma messages_stops_at_closed_or_error_witness :
  messages (E := Example.env Example.happy)
           ([Scenario.text "{}"] ++ Scenario.control CLOSED
              :: [Scenario.text Example.snapshot_text])
           Example.connected
  = messages (E := Example.env Example.happy) [Scenario.text "{}"] Example.connected.
Proof.
  apply (messages_stops_at_closed_or_error (E := Example.env Example.happy)).
  reflexivity.
Defined.

Lemma messages_ends_at_first_error_witness :
  messages_loop (E := Example.env Example.happy) 0
                (Scenario.text Example.feed_without_args_text
                   :: [Scenario.text Example.snapshot_text])
                Example.connected
  = (Raise KeyError, Example.connected,
     [Log (DebugPayload 0 Example.feed_without_args)]).
Proof.
  destruct (messages_ends_at_first_error (E := Example.env Example.happy) 0
              (Scenario.text Example.feed_without_args_text)
              [Scenario.text Example.snapshot_text]
              Example.connected KeyError eq_refl) as [Hdemux _].
  apply (Hdemux Example.feed_without_args); reflexivity.
Defined.

Lemma no_cutoff_no_filter_witness :
  applied (events (_handle_rc (E := Example.env Example.happy)
                              (JInt 5) Scenario.half_connected))
  = [{| Example.utc := Some (Naive 5); Example.flag := "YELLOW" |}].
Proof.
  apply (no_cutoff_no_filter (E := Example.env Example.happy)
           Scenario.half_connected (JInt 5) _ 100); reflexivity.
Defined.

Lemma uncomparable_timestamp_is_dropped_witness :
  _handle_rc (E := Example.env Example.happy) (JStr "z") Example.connected
  = (Ok tt, Example.connected,
     [CallCleanRc (JStr "z") 1000000000; Log (WarnTransformFailed TypeError)]).
Proof.
  destruct (uncomparable_timestamp_is_dropped (E := Example.env Example.happy)
              Example.connected (JStr "z")
              {| Example.utc := Some (Aware 0); Example.flag := "RED" |}
              1000000001 970000000 eq_refl eq_refl) as [Haware _].
  apply (Haware 0). reflexivity.
Defined.

Lemma incremental_branch_takes_precedence_witness :
  demux (E := Example.env Example.happy)
        (JObj [("M", JArr []); ("R", JObj [("RaceControlMessages",
                                            JObj [("Messages", JArr [JInt 5])])])])
        Example.connected
  = demux (E := Example.env Example.happy) (JObj [("M", JArr [])]) Example.connected.
Proof.
  apply (incremental_branch_takes_precedence (E := Example.env Example.happy)
           _ _ (JArr [])); reflexivity.
Defined.

Lemma other_hub_messages_are_passed_by_witness :
  demux (E := Example.env Example.happy)
        (JObj [("C", JStr "d-1"); ("M", JArr [JObj [("M", JStr "heartbeat")]])])
        Example.connected
  = (Ok true, Example.connected, []).
Proof.
  apply (other_hub_messages_are_passed_by (E := Example.env Example.happy)
           _ [JObj [("M", JStr "heartbeat")]]); [reflexivity|].
  constructor; [|constructor].
  exists [("M", JStr "heartbeat")]. split; [reflexivity|].
  left. exists (JStr "heartbeat"). split; reflexivity.
Defined.

Lemma close_after_connect_witness :
  let s := after (connect (E := Example.env Example.happy)
                          (init (E := Example.env Example.happy) 0)) in
  exists h,
    sent (events (connect (E := Example.env Example.happy)
                          (init (E := Example.env Example.happy) 0)))
      = [(h, SUBSCRIBE_MSG)] /\
    ws_closes (events (close (E := Example.env Example.happy) s)) = [h] /\
    _ws (self (after (close (E := Example.env Example.happy) s))) = None.
Proof.
  cbv zeta.
  destruct (close_after_connect (E := Example.env Example.happy)
              (init (E := Example.env Example.happy) 0) eq_refl)
    as (h & Hsent & Hclose & Hok & _).
  exists h. split; [exact Hsent|]. split; [exact Hclose|].
  apply Hok. reflexivity.
Defined.

Lemma state_change_is_published_witness :
  published (events (_handle_rc (E := Example.env Example.happy)
                                (JInt 1000000000) Example.connected))
  = [("sensor.f1_flag", "YELLOW", tt)].
Proof.
  apply (state_change_is_published (E := Example.env Example.happy)
           Example.connected (JInt 1000000000)
           {| Example.utc := Some (Naive 1000000000); Example.flag := "YELLOW" |}
           1000000001 1000000001 970000000 1000000000 (Some "YELLOW") tt);
    try reflexivity. lia.
Defined.
